(** * LSB steganography codec of [Steganography/LSB Steganography.py]

    A shallow embedding of the two codec functions [encode_lsb] and
    [decode_lsb], taken between the image loader ([pixels = list(img.getdata())])
    and the image saver ([stego_img.putdata(new_pixels)]), together with the
    Python primitives they call ([format], [int], [chr], [str], slicing,
    [endswith], [replace], [range]). *)

From Stdlib Require Import ZArith NArith List Bool Lia Ascii String Permutation.
From Stdlib Require Import DecimalString.
Import ListNotations.

Set Implicit Arguments.

(** ** Python values *)

(** A Python [str] is a sequence of Unicode code points. *)
Definition codepoint := N.
Definition pystr := list codepoint.

Definition ord_ascii (a : ascii) : codepoint := N_of_ascii a.

(** A string literal of the source. *)
Definition lit (s : string) : pystr := map ord_ascii (list_ascii_of_string s).

(** The exceptions the codec's primitives can raise. *)
Inductive exn : Type :=
| ValueError
| IndexError.

Inductive res (A : Type) : Type :=
| Ok (a : A)
| Raise (e : exn).

Arguments Ok {A} a.
Arguments Raise {A} e.

Definition bind {A B : Type} (m : res A) (k : A -> res B) : res B :=
  match m with
  | Ok a => k a
  | Raise e => Raise e
  end.

Declare Scope res_scope.
Delimit Scope res_scope with res.
Notation "x <- m ;; k" := (bind m (fun x => k))
  (at level 61, m at next level, right associativity) : res_scope.
Notation "' p <- m ;; k" := (bind m (fun x => match x with p => k end))
  (at level 61, p pattern, m at next level, right associativity) : res_scope.

Module Py.

(** [len(s)] *)
Definition len (A : Type) (s : list A) : nat := List.length s.

(** [s[i]]: an index past the end raises. *)
Definition index (s : pystr) (i : nat) : res codepoint :=
  match nth_error s i with
  | Some c => Ok c
  | None => Raise IndexError
  end.

(** [s[i:j]]: a slice is clamped to the string and never raises. *)
Definition slice (s : pystr) (i j : nat) : pystr := firstn (j - i) (skipn i s).

(** Binary digits of a positive number, most significant first. *)
Fixpoint bin_pos (p : positive) (acc : pystr) : pystr :=
  match p with
  | xH => ord_ascii "1" :: acc
  | xO q => bin_pos q (ord_ascii "0" :: acc)
  | xI q => bin_pos q (ord_ascii "1" :: acc)
  end.

Definition bin (n : N) : pystr :=
  match n with
  | N0 => [ord_ascii "0"]
  | Npos p => bin_pos p []
  end.

(** [format(n, '08b')]: the binary digits of [n], padded on the left with
    zeros to a width of at least 8; a wider number keeps all its digits. *)
Definition format_08b (n : N) : pystr :=
  let digits := bin n in
  repeat (ord_ascii "0") (8 - len digits) ++ digits.

(** [''.join(f(c) for c in s)] *)
Definition join_map (f : codepoint -> pystr) (s : pystr) : pystr :=
  flat_map f s.

(** [str(z)] for an integer: its decimal numeral. *)
Definition str_int (z : Z) : pystr := lit (NilZero.string_of_int (Z.to_int z)).

Definition digit_val (c : codepoint) : option Z :=
  if (48 <=? c)%N && (c <=? 57)%N then Some (Z.of_N c - 48)%Z else None.

Fixpoint int_digits (base : Z) (s : pystr) (acc : Z) : res Z :=
  match s with
  | [] => Ok acc
  | c :: s' =>
      match digit_val c with
      | Some d =>
          if (d <? base)%Z then int_digits base s' (base * acc + d)%Z
          else Raise ValueError
      | None => Raise ValueError
      end
  end.

(** [int(s, base)] on an unsigned digit string, for a base up to 10.  An
    empty string or a character that is not a digit of the base raises
    [ValueError].  Python's [int] also accepts blanks, a sign, underscores
    and a base prefix; those forms never reach the codec and are reported as
    [ValueError] here, so this function raises whenever Python's does. *)
Definition int (s : pystr) (base : Z) : res Z :=
  match s with
  | [] => Raise ValueError
  | _ => int_digits base s 0%Z
  end.

(** [chr(z)]: defined on [range(0x110000)]. *)
Definition chr (z : Z) : res codepoint :=
  if (0 <=? z)%Z && (z <? 1114112)%Z then Ok (Z.to_N z) else Raise ValueError.

(** [s.startswith(prefix)] *)
Fixpoint startswith (s prefix : pystr) {struct prefix} : bool :=
  match prefix with
  | [] => true
  | p :: prefix' =>
      match s with
      | [] => false
      | c :: s' => (c =? p)%N && startswith s' prefix'
      end
  end.

(** [s.endswith(suffix)] *)
Definition endswith (s suffix : pystr) : bool :=
  (len suffix <=? len s) && startswith (skipn (len s - len suffix) s) suffix.

(** [s.replace(old, new)] for a non-empty [old]: every occurrence of [old]
    found scanning from the left, occurrences not overlapping, is replaced
    by [new].  [skip] counts the characters of a matched occurrence that
    are still to be passed over. *)
Fixpoint replace_from (old new s : pystr) (skip : nat) : pystr :=
  match s with
  | [] => []
  | c :: s' =>
      match skip with
      | S k => replace_from old new s' k
      | O =>
          if startswith s old
          then new ++ replace_from old new s' (len old - 1)
          else c :: replace_from old new s' 0
      end
  end.

Definition replace (s old new : pystr) : pystr := replace_from old new s 0.

(** [range(start, stop, step)] for a positive [step] and [start <= stop]. *)
Definition range (start stop step : nat) : list nat :=
  map (fun k => start + k * step) (seq 0 ((stop - start + step - 1) / step)).

End Py.

(** ** The codec *)

(** A pixel of an RGB image: [(r, g, b)]. *)
Definition pixel := (Z * Z * Z)%type.

(** What [Image.getdata] yields for an RGB image: channels in [0, 255]. *)
Definition valid_channel (c : Z) : Prop := (0 <= c <= 255)%Z.
Definition valid_pixel (p : pixel) : Prop :=
  let '(r, g, b) := p in valid_channel r /\ valid_channel g /\ valid_channel b.

Definition delimiter : pystr := lit "|||END|||".

(** The outcomes of [encode_lsb] once the image is loaded. *)
Inductive encode_result : Type :=
| Encoded (new_pixels : list pixel)
    (** [return True], [new_pixels] having been handed to the saver *)
| TooLong (max_chars : nat)
    (** "Message too long! Maximum [max_chars] characters.", [return False] *)
| EncodeError (e : exn).
    (** the [except Exception] handler, [return False] *)

(** The outcomes of [decode_lsb] once the image is loaded. *)
Inductive decode_result : Type :=
| Found (message : pystr)   (** [return message] *)
| NotFound                  (** "No hidden message found", [return None] *)
| DecodeError (e : exn).    (** the [except Exception] handler, [return None] *)

Local Open Scope res_scope.

(** One channel of the loop body of [encode_lsb]:
    [if binary_index < len(binary_message):
         c = (c & 0xFE) | int(binary_message[binary_index]); binary_index += 1] *)
Definition encode_channel (binary_message : pystr) (c : Z) (binary_index : nat)
  : res (Z * nat) :=
  if binary_index <? Py.len binary_message then
    ch <- Py.index binary_message binary_index ;;
    bit <- Py.int [ch] 10 ;;
    Ok (Z.lor (Z.land c 254) bit, binary_index + 1)
  else Ok (c, binary_index).

(** The body of [for pixel in pixels] of [encode_lsb]; the loop state is
    [new_pixels] and [binary_index]. *)
Definition encode_pixel (binary_message : pystr) (st : list pixel * nat) (px : pixel)
  : res (list pixel * nat) :=
  let '(new_pixels, binary_index) := st in
  let '(r, g, b) := px in
  '(r, binary_index) <- encode_channel binary_message r binary_index ;;
  '(g, binary_index) <- encode_channel binary_message g binary_index ;;
  '(b, binary_index) <- encode_channel binary_message b binary_index ;;
  Ok (new_pixels ++ [(r, g, b)], binary_index).

(** A [for] loop over a list, threading the loop state. *)
Fixpoint for_each (St A : Type) (body : St -> A -> res St) (l : list A) (st : St)
  : res St :=
  match l with
  | [] => Ok st
  | a :: l' => st' <- body st a ;; for_each body l' st'
  end.

Definition encode_lsb (pixels : list pixel) (message : pystr) : encode_result :=
  let message_with_delimiter := message ++ delimiter in
  let binary_message := Py.join_map Py.format_08b message_with_delimiter in
  if Py.len pixels * 3 <? Py.len binary_message then
    TooLong (Py.len pixels * 3 / 8)
  else
    match for_each (encode_pixel binary_message) pixels ([], 0) with
    | Ok (new_pixels, _) => Encoded new_pixels
    | Raise e => EncodeError e
    end.

(** The first loop of [decode_lsb]: the least-significant bit of every
    channel, as a string of digits. *)
Fixpoint extract_lsb (pixels : list pixel) (binary_message : pystr) : pystr :=
  match pixels with
  | [] => binary_message
  | (r, g, b) :: rest =>
      let binary_message := binary_message ++ Py.str_int (Z.land r 1) in
      let binary_message := binary_message ++ Py.str_int (Z.land g 1) in
      let binary_message := binary_message ++ Py.str_int (Z.land b 1) in
      extract_lsb rest binary_message
  end.

(** The second loop of [decode_lsb], over [range(0, len(binary_message), 8)];
    it returns from inside the loop at the first delimiter match. *)
Fixpoint decode_loop (binary_message : pystr) (indices : list nat) (message : pystr)
  : res (option pystr) :=
  match indices with
  | [] => Ok None
  | i :: rest =>
      let byte := Py.slice binary_message i (i + 8) in
      if Py.len byte =? 8 then
        n <- Py.int byte 2 ;;
        char <- Py.chr n ;;
        let message := message ++ [char] in
        if Py.endswith message delimiter
        then Ok (Some (Py.replace message delimiter []))
        else decode_loop binary_message rest message
      else decode_loop binary_message rest message
  end.

(** The text conversion of [decode_lsb], from the extracted digit string. *)
Definition decode_text (binary_message : pystr) : decode_result :=
  match decode_loop binary_message (Py.range 0 (Py.len binary_message) 8) [] with
  | Ok (Some message) => Found message
  | Ok None => NotFound
  | Raise e => DecodeError e
  end.

Definition decode_lsb (pixels : list pixel) : decode_result :=
  decode_text (extract_lsb pixels []).

Local Close Scope res_scope.

(** ** Notions of the specification *)

(** A character representable in one 8-bit code unit. *)
Definition single_byte (c : codepoint) : Prop := (c <= 255)%N.

(** The character of a binary digit, and the strings made of them. *)
Definition digit (b : bool) : codepoint := if b then ord_ascii "1" else ord_ascii "0".
Definition is_bit (c : codepoint) : Prop := c = ord_ascii "0" \/ c = ord_ascii "1".

(** Bitstream: 8 bits per character, most significant bit first, characters
    in message order. *)
Definition byte_bits (c : codepoint) : list bool :=
  map (N.testbit c) [7; 6; 5; 4; 3; 2; 1; 0]%N.
Definition bitstream (s : pystr) : list bool := flat_map byte_bits s.

(** The unsigned value of a group of bits read most significant bit first. *)
Definition byte_of_bits (bs : list bool) : N :=
  fold_left (fun a b => (2 * a + N.b2n b)%N) bs 0%N.

(** Channel [j] of a pixel: red is 0, green is 1, blue is 2. *)
Definition channel (p : pixel) (j : nat) : Z :=
  let '(r, g, b) := p in
  match j with
  | 0 => r
  | 1 => g
  | _ => b
  end.

Definition black : pixel := (0, 0, 0)%Z.

(** The least-significant bits of a pixel sequence, channel by channel. *)
Definition lsb_bits (pixels : list pixel) : list bool :=
  flat_map (fun p => map (fun j => Z.testbit (channel p j) 0) [0; 1; 2]) pixels.

(** The character stream of a bit sequence: one character per complete group
    of 8 bits, grouping from the first bit. *)
Definition chars_of_bits (bits : list bool) : pystr :=
  map (fun k => byte_of_bits (firstn 8 (skipn (8 * k) bits)))
      (seq 0 (List.length bits / 8)).

Definition lsb_chars (pixels : list pixel) : pystr := chars_of_bits (lsb_bits pixels).

(** [sub in s] *)
Definition contains (s sub : pystr) : bool :=
  existsb (fun k => Py.startswith (skipn k s) sub) (seq 0 (S (List.length s))).

(** The delimiter scan of the decoder over a character stream: the running
    string grows by one character at a time and the scan stops at the first
    time it ends with the delimiter. *)
Fixpoint scan (message chars : pystr) : option pystr :=
  match chars with
  | [] => None
  | c :: rest =>
      let message := message ++ [c] in
      if Py.endswith message delimiter
      then Some (Py.replace message delimiter [])
      else scan message rest
  end.

Definition decode_outcome (o : option pystr) : decode_result :=
  match o with
  | Some message => Found message
  | None => NotFound
  end.

(** What the encoder leaves in channel number [j] (counted across the pixel
    sequence) that held [c]. *)
Definition embed_channel (binary_message : pystr) (c : Z) (j : nat) : Z :=
  if j <? List.length binary_message
  then Z.lor (Z.land c 254) (Z.of_N (nth j binary_message 48%N) - 48)
  else c.

Definition embed_pixel (binary_message : pystr) (k : nat) (p : pixel) : pixel :=
  let '(r, g, b) := p in
  (embed_channel binary_message r (3 * k),
   embed_channel binary_message g (3 * k + 1),
   embed_channel binary_message b (3 * k + 2)).

Fixpoint embed (binary_message : pystr) (k : nat) (pixels : list pixel) : list pixel :=
  match pixels with
  | [] => []
  | p :: rest => embed_pixel binary_message k p :: embed binary_message (S k) rest
  end.

(** The digit string the encoder writes for a message. *)
Definition framed_bits (message : pystr) : pystr :=
  Py.join_map Py.format_08b (message ++ delimiter).

(** Decidable equality of strings, for checks by computation. *)
Definition pystr_eqb (s t : pystr) : bool :=
  if list_eq_dec N.eq_dec s t then true else false.

(** [byte_of_bits] from a given accumulator. *)
Definition bits_acc (bs : list bool) (a : N) : N :=
  fold_left (fun a b => (2 * a + N.b2n b)%N) bs a.

(** The group starting at bit [8 * k] is complete. *)
Definition complete (bits : list bool) (k : nat) : bool :=
  8 * k + 8 <=? List.length bits.

(** The character of the group starting at bit [8 * k]. *)
Definition group_char (bits : list bool) (k : nat) : codepoint :=
  byte_of_bits (firstn 8 (skipn (8 * k) bits)).

(** The bits written as a numeral. *)
Definition bits_of_numeral (s : string) : list bool :=
  map (fun c => (c =? ord_ascii "1")%N) (lit s).

(** ** The command line *)

(** What [main] does with [sys.argv]. *)
Inductive cli_effect : Type :=
| ShowUsage
    (** [print_usage()] *)
| EncodeUsageError
    (** "Wrong number of arguments for encode" *)
| RunEncode (input_image message output_image : pystr)
    (** [encode_lsb(input_image, message, output_image)] *)
| DecodeUsageError
    (** "Wrong number of arguments for decode" *)
| RunDecode (stego_image : pystr)
    (** [decode_lsb(stego_image)] *)
| RunSample (filename : pystr)
    (** [create_sample_image(filename)] *)
| UnknownCommand (command : pystr).
    (** "Unknown command: [command]", then [print_usage()] *)

(** [sys.argv[i]]: an index past the end raises. *)
Definition argv_index (argv : list pystr) (i : nat) : res pystr :=
  match nth_error argv i with
  | Some s => Ok s
  | None => Raise IndexError
  end.

Local Open Scope res_scope.

(** [main], which has no exception handler of its own.  [lower] stands for
    [str.lower], whose Unicode case mapping is left open. *)
Definition main (lower : pystr -> pystr) (argv : list pystr) : res cli_effect :=
  if Py.len argv <? 2 then Ok ShowUsage
  else
    arg1 <- argv_index argv 1 ;;
    let command := lower arg1 in
    if pystr_eqb command (lit "encode") then
      if negb (Py.len argv =? 5) then Ok EncodeUsageError
      else
        input_image <- argv_index argv 2 ;;
        message <- argv_index argv 3 ;;
        output_image <- argv_index argv 4 ;;
        Ok (RunEncode input_image message output_image)
    else if pystr_eqb command (lit "decode") then
      if negb (Py.len argv =? 3) then Ok DecodeUsageError
      else
        stego_image <- argv_index argv 2 ;;
        Ok (RunDecode stego_image)
    else if pystr_eqb command (lit "sample") then
      filename <- (if 2 <? Py.len argv then argv_index argv 2
                   else Ok (lit "sample.png")) ;;
      Ok (RunSample filename)
    else Ok (UnknownCommand command).

Local Close Scope res_scope.

(** [str.lower] on strings of ASCII characters. *)
Definition ascii_lower (s : pystr) : pystr :=
  map (fun c => if (65 <=? c)%N && (c <=? 90)%N then (c + 32)%N else c) s.

(** ** Sanity checks on concrete inputs *)

Example format_08b_H : Py.format_08b 72 = lit "01001000".
Proof. reflexivity. Qed.

Example format_08b_zero : Py.format_08b 0 = lit "00000000".
Proof. reflexivity. Qed.

Example format_08b_wide : Py.format_08b 256 = lit "100000000".
Proof. reflexivity. Qed.

Example str_int_bits : Py.str_int 0 = lit "0" /\ Py.str_int 1 = lit "1".
Proof. split; reflexivity. Qed.

Example int_base2_H : Py.int (lit "01001000") 2 = Ok 72%Z.
Proof. reflexivity. Qed.

Example int_base2_bad : Py.int (lit "01201000") 2 = Raise ValueError.
Proof. reflexivity. Qed.

Example replace_all : Py.replace (lit "a--b--c") (lit "--") (lit "+") = lit "a+b+c".
Proof. reflexivity. Qed.

Example replace_no_overlap : Py.replace (lit "aaa") (lit "aa") (lit "b") = lit "ba".
Proof. reflexivity. Qed.

Example range_8 : Py.range 0 30 8 = [0; 8; 16; 24].
Proof. reflexivity. Qed.

Example slice_clamped : Py.slice (lit "abc") 2 10 = lit "c".
Proof. reflexivity. Qed.

Example main_upper_case :
  main ascii_lower [lit "stego_tool.py"; lit "DECODE"; lit "challenge.png"]
  = Ok (RunDecode (lit "challenge.png")).
Proof. reflexivity. Qed.

Example encode_HI_30 :
  decode_lsb (match encode_lsb (repeat (0, 0, 0)%Z 30) (lit "HI") with
              | Encoded out => out
              | _ => []
              end) = Found (lit "HI").
Proof. vm_compute. reflexivity. Qed.

(** ** Binary digit strings *)

Section Digits.

Lemma below_256 (P : N -> bool) :
  forallb P (map N.of_nat (seq 0 256)) = true ->
  forall n, (n < 256)%N -> P n = true.
Proof.
  intros H n Hn. rewrite forallb_forall in H. apply H.
  apply in_map_iff. exists (N.to_nat n). split; [apply N2Nat.id|].
  apply in_seq. lia.
Qed.

Lemma is_bit_digit b : is_bit (digit b).
Proof. destruct b; [right|left]; reflexivity. Qed.

Lemma is_bit_inv c : is_bit c -> exists b, c = digit b.
Proof. intros [->| ->]; [exists false|exists true]; reflexivity. Qed.

Lemma Forall_is_bit_map bits : Forall is_bit (map digit bits).
Proof. induction bits; simpl; constructor; auto using is_bit_digit. Qed.

Lemma bin_pos_bits p : forall acc, Forall is_bit acc -> Forall is_bit (Py.bin_pos p acc).
Proof.
  induction p; intros acc H; simpl.
  - apply IHp. constructor; [right; reflexivity|assumption].
  - apply IHp. constructor; [left; reflexivity|assumption].
  - constructor; [right; reflexivity|assumption].
Qed.

Lemma bin_pos_length p : forall acc,
  List.length (Py.bin_pos p acc) = Pos.size_nat p + List.length acc.
Proof.
  induction p; intros acc; simpl; try rewrite IHp; simpl; lia.
Qed.

Lemma format_08b_bits n : Forall is_bit (Py.format_08b n).
Proof.
  unfold Py.format_08b. apply Forall_app. split.
  - apply Forall_forall. intros x Hx. apply repeat_spec in Hx. left. exact Hx.
  - destruct n; simpl.
    + constructor; [left; reflexivity|constructor].
    + apply bin_pos_bits. constructor.
Qed.

Lemma format_08b_length n :
  List.length (Py.format_08b n) = Nat.max 8 (N.to_nat (N.size n)).
Proof.
  unfold Py.format_08b, Py.len. rewrite length_app, repeat_length.
  destruct n as [|p]; [reflexivity|].
  unfold Py.bin, N.size. rewrite bin_pos_length.
  cbn [List.length N.to_nat].
  replace (Pos.to_nat (Pos.size p)) with (Pos.size_nat p); [lia|].
  induction p; cbn [Pos.size Pos.size_nat]; try rewrite IHp; lia.
Qed.

End Digits.

(** ** Bytes and their digit strings *)

Section Bytes.

Lemma pystr_eqb_eq s t : pystr_eqb s t = true -> s = t.
Proof. unfold pystr_eqb. destruct (list_eq_dec N.eq_dec s t); congruence. Qed.

Lemma format_08b_byte c :
  single_byte c -> Py.format_08b c = map digit (byte_bits c).
Proof.
  intros Hc. apply pystr_eqb_eq.
  apply (below_256 (fun c => pystr_eqb (Py.format_08b c) (map digit (byte_bits c)))).
  - vm_compute. reflexivity.
  - unfold single_byte in Hc. lia.
Qed.

Lemma byte_of_byte_bits c : single_byte c -> byte_of_bits (byte_bits c) = c.
Proof.
  intros Hc. apply N.eqb_eq.
  apply (below_256 (fun c => (byte_of_bits (byte_bits c) =? c)%N)).
  - vm_compute. reflexivity.
  - unfold single_byte in Hc. lia.
Qed.

Lemma byte_bits_length c : List.length (byte_bits c) = 8.
Proof. reflexivity. Qed.

Lemma bitstream_length s : List.length (bitstream s) = 8 * List.length s.
Proof.
  induction s as [|c s IH]; [reflexivity|].
  unfold bitstream in *. cbn [flat_map]. rewrite length_app, IH, byte_bits_length.
  cbn [List.length]. lia.
Qed.

Lemma join_format_bitstream s :
  Forall single_byte s -> Py.join_map Py.format_08b s = map digit (bitstream s).
Proof.
  induction 1 as [|c s Hc _ IH]; [reflexivity|].
  unfold Py.join_map, bitstream in *. cbn [flat_map].
  rewrite map_app, IH, format_08b_byte by assumption. reflexivity.
Qed.

Lemma join_format_bits s : Forall is_bit (Py.join_map Py.format_08b s).
Proof.
  induction s as [|c s IH]; [constructor|].
  unfold Py.join_map in *. cbn [flat_map]. apply Forall_app. split; [|exact IH].
  apply format_08b_bits.
Qed.

Lemma join_format_length_ge s :
  8 * List.length s <= List.length (Py.join_map Py.format_08b s).
Proof.
  induction s as [|c s IH]; [cbn; lia|].
  unfold Py.join_map in *. cbn [flat_map]. rewrite length_app, format_08b_length.
  cbn [List.length]. lia.
Qed.

Lemma int_digits_bits bs : forall a,
  Py.int_digits 2 (map digit bs) (Z.of_N a) = Ok (Z.of_N (bits_acc bs a)).
Proof.
  induction bs as [|b bs IH]; intros a; [reflexivity|].
  cbn [map Py.int_digits bits_acc fold_left].
  replace (Py.digit_val (digit b)) with (Some (Z.of_N (N.b2n b)))
    by (destruct b; reflexivity).
  replace (Z.of_N (N.b2n b) <? 2)%Z with true by (destruct b; reflexivity).
  replace (2 * Z.of_N a + Z.of_N (N.b2n b))%Z with (Z.of_N (2 * a + N.b2n b)) by lia.
  apply IH.
Qed.

Lemma bits_acc_bound bs : forall a,
  (bits_acc bs a < (a + 1) * 2 ^ N.of_nat (List.length bs))%N.
Proof.
  induction bs as [|b bs IH]; intros a.
  - cbn. lia.
  - cbn [bits_acc fold_left List.length]. specialize (IH (2 * a + N.b2n b)%N).
    unfold bits_acc in IH. eapply N.lt_le_trans; [exact IH|].
    rewrite Nat2N.inj_succ, N.pow_succ_r'.
    assert (N.b2n b <= 1)%N by (destruct b; cbn; lia).
    assert (0 < 2 ^ N.of_nat (List.length bs))%N by (apply N.neq_0_lt_0, N.pow_nonzero; lia).
    nia.
Qed.

Lemma int_byte bs :
  List.length bs = 8 -> Py.int (map digit bs) 2 = Ok (Z.of_N (byte_of_bits bs)).
Proof.
  intros Hlen. destruct bs as [|b bs]; [discriminate|].
  unfold Py.int. cbn [map]. change (digit b :: map digit bs) with (map digit (b :: bs)).
  apply (int_digits_bits (b :: bs) 0).
Qed.

Lemma byte_of_bits_bound bs : List.length bs = 8 -> (byte_of_bits bs < 256)%N.
Proof.
  intros Hlen. pose proof (bits_acc_bound bs 0) as H. rewrite Hlen in H. exact H.
Qed.

Lemma chr_byte bs :
  List.length bs = 8 -> Py.chr (Z.of_N (byte_of_bits bs)) = Ok (byte_of_bits bs).
Proof.
  intros Hlen. pose proof (byte_of_bits_bound bs Hlen) as H. unfold Py.chr.
  replace ((0 <=? Z.of_N (byte_of_bits bs))%Z && (Z.of_N (byte_of_bits bs) <? 1114112)%Z)
    with true by (symmetry; apply andb_true_iff; split; lia).
  rewrite N2Z.id. reflexivity.
Qed.

Lemma str_int_lsb c : Py.str_int (Z.land c 1) = [digit (Z.testbit c 0)].
Proof.
  change 1%Z with (Z.ones 1). rewrite Z.land_ones by lia.
  change (2 ^ 1)%Z with 2%Z. rewrite <- Z.bit0_mod.
  destruct (Z.testbit c 0); reflexivity.
Qed.

End Bytes.

(** ** The decoder as a scan of the character stream *)

Section Decoder.

Lemma extract_lsb_acc pixels : forall acc,
  extract_lsb pixels acc = acc ++ map digit (lsb_bits pixels).
Proof.
  induction pixels as [|[[r g] b] rest IH]; intros acc.
  - cbn. rewrite app_nil_r. reflexivity.
  - cbn [extract_lsb]. rewrite IH, !str_int_lsb.
    unfold lsb_bits. cbn [flat_map map channel app].
    rewrite <- !app_assoc. reflexivity.
Qed.

Lemma extract_lsb_bits pixels : extract_lsb pixels [] = map digit (lsb_bits pixels).
Proof. apply extract_lsb_acc. Qed.

Lemma lsb_bits_length pixels : List.length (lsb_bits pixels) = 3 * List.length pixels.
Proof.
  induction pixels as [|p rest IH]; [reflexivity|].
  unfold lsb_bits in *. cbn [flat_map]. rewrite length_app, IH. cbn [List.length map]. lia.
Qed.

Lemma slice_digits bits k :
  Py.slice (map digit bits) (0 + k * 8) (0 + k * 8 + 8)
  = map digit (firstn 8 (skipn (8 * k) bits)).
Proof.
  unfold Py.slice. replace (0 + k * 8 + 8 - (0 + k * 8)) with 8 by lia.
  replace (0 + k * 8) with (8 * k) by lia.
  rewrite skipn_map, firstn_map. reflexivity.
Qed.

Lemma group_length (bits : list bool) k :
  List.length (firstn 8 (skipn (8 * k) bits)) = Nat.min 8 (List.length bits - 8 * k).
Proof. rewrite length_firstn, length_skipn. reflexivity. Qed.

Lemma decode_loop_scan bits : forall cnt k message,
  decode_loop (map digit bits) (map (fun j => 0 + j * 8) (seq k cnt)) message
  = Ok (scan message (map (group_char bits) (filter (complete bits) (seq k cnt)))).
Proof.
  induction cnt as [|cnt IH]; intros k message; [reflexivity|].
  cbn [seq map decode_loop filter].
  rewrite slice_digits. unfold Py.len. rewrite length_map, group_length.
  unfold complete at 1. destruct (Nat.leb_spec (8 * k + 8) (List.length bits)) as [Hk|Hk].
  - replace (Nat.min 8 (List.length bits - 8 * k) =? 8) with true
      by (symmetry; apply Nat.eqb_eq; lia).
    assert (Hlen : List.length (firstn 8 (skipn (8 * k) bits)) = 8)
      by (rewrite group_length; lia).
    rewrite int_byte by exact Hlen. cbn [bind].
    rewrite chr_byte by exact Hlen. cbn [bind map scan].
    fold (group_char bits k).
    destruct (Py.endswith (message ++ [group_char bits k]) delimiter); [reflexivity|].
    apply IH.
  - replace (Nat.min 8 (List.length bits - 8 * k) =? 8) with false
      by (symmetry; apply Nat.eqb_neq; lia).
    apply IH.
Qed.

Lemma filter_complete bits c :
  List.length bits / 8 <= c ->
  filter (complete bits) (seq 0 c) = seq 0 (List.length bits / 8).
Proof.
  set (n := List.length bits).
  induction c as [|c IH]; intros Hc.
  - replace (n / 8) with 0 by lia. reflexivity.
  - rewrite seq_S, filter_app. cbn [filter Nat.add]. unfold complete at 2. fold n.
    pose proof (Nat.div_mod_eq n 8) as Hn.
    pose proof (Nat.mod_upper_bound n 8 ltac:(lia)) as Hm.
    destruct (Nat.leb_spec (8 * c + 8) n) as [Hk|Hk].
    + assert (n / 8 = S c) as -> by lia.
      rewrite seq_S. cbn [Nat.add]. f_equal.
      clear IH Hc. induction c as [|c IHc]; [reflexivity|].
      rewrite seq_S, filter_app. cbn [filter Nat.add]. unfold complete at 2. fold n.
      replace (8 * c + 8 <=? n) with true by (symmetry; apply Nat.leb_le; lia).
      rewrite IHc by lia. reflexivity.
    + rewrite app_nil_r. apply IH. lia.
Qed.

(** The decoder is the delimiter scan of the character stream of the
    channels' least-significant bits; it never takes the exception path. *)
Lemma decode_text_scan bits :
  decode_text (map digit bits) = decode_outcome (scan [] (chars_of_bits bits)).
Proof.
  unfold decode_text, Py.range, Py.len. rewrite decode_loop_scan, filter_complete.
  - unfold chars_of_bits, decode_outcome, group_char. reflexivity.
  - rewrite length_map. replace (List.length bits - 0 + 8 - 1) with (List.length bits + 7) by lia.
    apply Nat.Div0.div_le_mono. lia.
Qed.

Lemma decode_lsb_scan pixels :
  decode_lsb pixels = decode_outcome (scan [] (lsb_chars pixels)).
Proof. unfold decode_lsb. rewrite extract_lsb_bits. apply decode_text_scan. Qed.

End Decoder.

(** ** The encoder as a channel-wise overlay *)

Section Encoder.

Variable binary_message : pystr.
Hypothesis binary_digits : Forall is_bit binary_message.

Let n := List.length binary_message.

Lemma int_bit ch : is_bit ch -> Py.int [ch] 10 = Ok (Z.of_N ch - 48)%Z.
Proof. intros [->| ->]; reflexivity. Qed.

Lemma encode_channel_embed c j :
  encode_channel binary_message c (Nat.min j n)
  = Ok (embed_channel binary_message c j, Nat.min (j + 1) n).
Proof.
  unfold encode_channel, embed_channel, Py.len. fold n.
  destruct (Nat.ltb_spec j n) as [Hj|Hj].
  - replace (Nat.min j n) with j by lia.
    replace (j <? n) with true by (symmetry; apply Nat.ltb_lt; exact Hj).
    unfold Py.index. rewrite (nth_error_nth' binary_message 48%N Hj). cbn [bind].
    rewrite int_bit.
    + cbn [bind]. replace (Nat.min (j + 1) n) with (j + 1) by lia. reflexivity.
    + rewrite Forall_forall in binary_digits. apply binary_digits, nth_In, Hj.
  - replace (Nat.min j n) with n by lia.
    replace (n <? n) with false by (symmetry; apply Nat.ltb_irrefl).
    replace (Nat.min (j + 1) n) with n by lia. reflexivity.
Qed.

Lemma for_each_embed pixels : forall k new_pixels,
  for_each (encode_pixel binary_message) pixels (new_pixels, Nat.min (3 * k) n)
  = Ok (new_pixels ++ embed binary_message k pixels,
        Nat.min (3 * (k + List.length pixels)) n).
Proof.
  induction pixels as [|[[r g] b] rest IH]; intros k new_pixels.
  - cbn [for_each embed List.length]. rewrite app_nil_r, Nat.add_0_r. reflexivity.
  - cbn [for_each encode_pixel]. rewrite encode_channel_embed. cbn [bind].
    rewrite encode_channel_embed. cbn [bind].
    rewrite encode_channel_embed. cbn [bind].
    replace (3 * k + 1 + 1 + 1) with (3 * S k) by lia.
    rewrite IH. cbn [embed embed_pixel List.length].
    rewrite <- app_assoc. cbn [app].
    replace (3 * k + 1 + 1) with (3 * k + 2) by lia.
    replace (S k + List.length rest) with (k + S (List.length rest)) by lia.
    reflexivity.
Qed.

Lemma embed_length pixels : forall k,
  List.length (embed binary_message k pixels) = List.length pixels.
Proof. induction pixels as [|p rest IH]; intros k; cbn; [|rewrite IH]; reflexivity. Qed.

Lemma embed_nth pixels : forall k q,
  q < List.length pixels ->
  nth q (embed binary_message k pixels) black
  = embed_pixel binary_message (k + q) (nth q pixels black).
Proof.
  induction pixels as [|p rest IH]; intros k q Hq; [cbn in Hq; lia|].
  destruct q as [|q]; cbn [embed nth].
  - rewrite Nat.add_0_r. reflexivity.
  - rewrite IH by (cbn in Hq; lia). f_equal. lia.
Qed.

Lemma embed_pixel_channel k p j :
  j < 3 ->
  channel (embed_pixel binary_message k p) j
  = embed_channel binary_message (channel p j) (3 * k + j).
Proof.
  intros Hj. destruct p as [[r g] b].
  destruct j as [|[|[|j]]]; cbn [embed_pixel channel]; try lia; try reflexivity.
  rewrite Nat.add_0_r. reflexivity.
Qed.

End Encoder.

Section EncoderResult.

Lemma encode_lsb_embed pixels message :
  encode_lsb pixels message
  = if List.length pixels * 3 <? List.length (framed_bits message)
    then TooLong (List.length pixels * 3 / 8)
    else Encoded (embed (framed_bits message) 0 pixels).
Proof.
  unfold encode_lsb, Py.len. fold (framed_bits message).
  destruct (List.length pixels * 3 <? List.length (framed_bits message)); [reflexivity|].
  pose proof (for_each_embed (join_format_bits (message ++ delimiter)) pixels 0 [])
    as H.
  fold (framed_bits message) in H. change (Nat.min (3 * 0) _) with 0 in H.
  rewrite H. reflexivity.
Qed.

Lemma framed_bits_digits message : Forall is_bit (framed_bits message).
Proof. apply join_format_bits. Qed.

Lemma framed_bits_single_byte message :
  Forall single_byte message ->
  framed_bits message = map digit (bitstream (message ++ delimiter)).
Proof.
  intros H. apply join_format_bitstream. apply Forall_app. split; [exact H|].
  repeat constructor; unfold single_byte; cbn; lia.
Qed.

Lemma framed_bits_length message :
  Forall single_byte message ->
  List.length (framed_bits message) = 8 * (List.length message + 9).
Proof.
  intros H. rewrite framed_bits_single_byte, length_map, bitstream_length, length_app by exact H.
  reflexivity.
Qed.

End EncoderResult.

(** ** Prefixes, suffixes and replacement *)

Section Strings.

Lemma startswith_app p : forall rest, Py.startswith (p ++ rest) p = true.
Proof.
  induction p as [|c p IH]; intros rest; [reflexivity|].
  cbn [app Py.startswith]. rewrite N.eqb_refl, IH. reflexivity.
Qed.

Lemma startswith_inv p : forall s,
  Py.startswith s p = true -> s = p ++ skipn (List.length p) s.
Proof.
  induction p as [|c p IH]; intros s H; [reflexivity|].
  destruct s as [|d s]; [discriminate|].
  cbn [Py.startswith] in H. apply andb_true_iff in H. destruct H as [Hd Hs].
  apply N.eqb_eq in Hd. subst d. cbn [app List.length skipn]. f_equal. apply IH, Hs.
Qed.

Lemma endswith_app pre suf : Py.endswith (pre ++ suf) suf = true.
Proof.
  unfold Py.endswith, Py.len. rewrite length_app.
  replace (List.length pre + List.length suf - List.length suf) with (List.length pre) by lia.
  rewrite skipn_app, skipn_all, Nat.sub_diag. cbn [app skipn].
  pose proof (startswith_app suf []) as Hs. rewrite app_nil_r in Hs. rewrite Hs.
  replace (List.length suf <=? List.length pre + List.length suf) with true
    by (symmetry; apply Nat.leb_le; lia).
  reflexivity.
Qed.

Lemma endswith_inv s suf :
  Py.endswith s suf = true ->
  s = firstn (List.length s - List.length suf) s ++ suf
  /\ List.length suf <= List.length s.
Proof.
  unfold Py.endswith, Py.len. intros H. apply andb_true_iff in H. destruct H as [Hl Hs].
  apply Nat.leb_le in Hl. split; [|exact Hl].
  apply startswith_inv in Hs.
  rewrite (skipn_all2 (skipn (List.length s - List.length suf) s) (n := List.length suf))
    in Hs by (rewrite length_skipn; lia).
  rewrite app_nil_r in Hs.
  rewrite <- (firstn_skipn (List.length s - List.length suf) s) at 1.
  f_equal. exact Hs.
Qed.

Lemma contains_skipn s sub j :
  j <= List.length s -> Py.startswith (skipn j s) sub = true -> contains s sub = true.
Proof.
  intros Hj H. unfold contains. apply existsb_exists. exists j. split; [|exact H].
  apply in_seq. lia.
Qed.

(** Replacing in a string whose only occurrence of [old] is its suffix. *)
Lemma replace_suffix old s :
  old <> [] ->
  (forall j, j < List.length s -> Py.startswith (skipn j (s ++ old)) old = false) ->
  Py.replace (s ++ old) old [] = s.
Proof.
  intros Hold. unfold Py.replace. induction s as [|c s IH]; intros H.
  - cbn [app]. destruct old as [|o old]; [congruence|].
    cbn [Py.replace_from].
    pose proof (startswith_app (o :: old) []) as Hs. rewrite app_nil_r in Hs. rewrite Hs.
    cbn [app Py.len List.length].
    replace (S (List.length old) - 1) with (List.length old) by lia.
    clear. generalize (o :: old). intros pat.
    induction old as [|d old IHo]; [reflexivity|]. cbn [Py.replace_from List.length]. exact IHo.
  - pose proof (H 0 ltac:(cbn; lia)) as H0. cbn [skipn app] in H0.
    cbn [app Py.replace_from]. rewrite H0. f_equal.
    apply IH. intros j Hj. apply (H (S j)). cbn. lia.
Qed.

Lemma scan_skip cs : forall message rest,
  (forall n, 0 < n <= List.length cs ->
             Py.endswith (message ++ firstn n cs) delimiter = false) ->
  scan message (cs ++ rest) = scan (message ++ cs) rest.
Proof.
  induction cs as [|c cs IH]; intros message rest H.
  - rewrite app_nil_r. reflexivity.
  - pose proof (H 1 ltac:(cbn [List.length]; lia)) as H1. cbn [firstn] in H1.
    cbn [app scan]. rewrite H1.
    rewrite IH.
    + rewrite <- app_assoc. reflexivity.
    + intros n Hn. rewrite <- app_assoc. apply (H (S n)). cbn. lia.
Qed.

Lemma scan_none chars : forall message,
  (forall n, 0 < n <= List.length chars ->
             Py.endswith (message ++ firstn n chars) delimiter = false) ->
  scan message chars = None.
Proof.
  intros message H. rewrite <- (app_nil_r chars). rewrite scan_skip by exact H.
  reflexivity.
Qed.

End Strings.

(** ** Capacity *)

Section Capacity.

Lemma encode_fits pixels message :
  List.length (framed_bits message) <= 3 * List.length pixels ->
  encode_lsb pixels message = Encoded (embed (framed_bits message) 0 pixels).
Proof.
  intros H. rewrite encode_lsb_embed.
  replace (List.length pixels * 3 <? List.length (framed_bits message)) with false
    by (symmetry; apply Nat.ltb_ge; lia).
  reflexivity.
Qed.

Lemma encode_overflows pixels message :
  3 * List.length pixels < List.length (framed_bits message) ->
  encode_lsb pixels message = TooLong (3 * List.length pixels / 8).
Proof.
  intros H. rewrite encode_lsb_embed.
  replace (List.length pixels * 3 <? List.length (framed_bits message)) with true
    by (symmetry; apply Nat.ltb_lt; lia).
  rewrite (Nat.mul_comm (List.length pixels) 3). reflexivity.
Qed.

Lemma encode_Encoded_inv pixels message out :
  encode_lsb pixels message = Encoded out ->
  out = embed (framed_bits message) 0 pixels
  /\ List.length (framed_bits message) <= 3 * List.length pixels.
Proof.
  intros H. rewrite encode_lsb_embed in H.
  destruct (Nat.ltb_spec (List.length pixels * 3) (List.length (framed_bits message)))
    as [Hlt|Hge]; [discriminate|].
  split; [congruence|lia].
Qed.

(** C2 -- Capacity boundary with diagnostic: a framed bitstream of exactly
    [3 * len(pixels)] bits is encoded, one of [3 * len(pixels) + 1] bits or
    more is refused as too long, and the refusal reports
    [3 * len(pixels) // 8] as the maximum character count. *)
Theorem capacity_boundary (pixels : list pixel) (message : pystr) :
  (List.length (framed_bits message) = 3 * List.length pixels ->
   exists out, encode_lsb pixels message = Encoded out)
  /\ (3 * List.length pixels + 1 <= List.length (framed_bits message) ->
      encode_lsb pixels message = TooLong (3 * List.length pixels / 8)).
Proof.
  split; intros H.
  - eexists. apply encode_fits. lia.
  - apply encode_overflows. lia.
Qed.

Lemma capacity_boundary_witness :
  (exists out, encode_lsb (repeat black 24) (lit "") = Encoded out)
  /\ encode_lsb (repeat black 23) (lit "") = TooLong 8.
Proof.
  split.
  - apply (proj1 (capacity_boundary (repeat black 24) (lit ""))). reflexivity.
  - apply (proj2 (capacity_boundary (repeat black 23) (lit ""))). vm_compute. lia.
Defined.

(** C9 -- The delimiter counts against the capacity: a message of
    single-byte characters is encoded exactly when
    [8 * (len(message) + 9) <= 3 * len(pixels)], so that a message of the
    reported maximum [3 * len(pixels) // 8] characters is always refused. *)
Theorem capacity_counts_delimiter (pixels : list pixel) (message : pystr) :
  Forall single_byte message ->
  ((exists out, encode_lsb pixels message = Encoded out)
   <-> 8 * (List.length message + 9) <= 3 * List.length pixels)
  /\ (pixels <> [] ->
      List.length message = 3 * List.length pixels / 8 ->
      encode_lsb pixels message = TooLong (3 * List.length pixels / 8)).
Proof.
  intros Hm. pose proof (framed_bits_length Hm) as Hlen. split; [split|].
  - intros [out H]. apply encode_Encoded_inv in H. lia.
  - intros H. eexists. apply encode_fits. lia.
  - intros _ Hmax. apply encode_overflows. rewrite Hlen, Hmax.
    pose proof (Nat.div_mod_eq (3 * List.length pixels) 8) as Hd.
    pose proof (Nat.mod_upper_bound (3 * List.length pixels) 8 ltac:(lia)) as Hu.
    lia.
Qed.

Lemma capacity_counts_delimiter_witness :
  ((exists out, encode_lsb (repeat black 8) (lit "abc") = Encoded out)
   <-> 8 * (3 + 9) <= 3 * 8)
  /\ encode_lsb (repeat black 8) (lit "abc") = TooLong 3.
Proof.
  assert (Hm : Forall single_byte (lit "abc"))
    by (repeat constructor; unfold single_byte; cbn; lia).
  split.
  - apply (proj1 (capacity_counts_delimiter (repeat black 8) Hm)).
  - apply (proj2 (capacity_counts_delimiter (repeat black 8) Hm)).
    + discriminate.
    + reflexivity.
Defined.

End Capacity.

(** ** Characters wider than one byte *)

Section WideCharacters.

Lemma wide_size c : (255 < c)%N -> 8 < N.to_nat (N.size c).
Proof.
  intros Hc. pose proof (N.size_gt c) as Hs.
  destruct (N.le_gt_cases (N.size c) 8) as [Hle|Hgt]; [|lia].
  pose proof (N.pow_le_mono_r 2 _ _ ltac:(lia) Hle) as Hp.
  change (2 ^ 8)%N with 256%N in Hp. lia.
Qed.

Lemma join_format_length_wide (s : pystr) (c : codepoint) :
  In c s -> (255 < c)%N ->
  8 * List.length s < List.length (Py.join_map Py.format_08b s).
Proof.
  intros Hin Hc. induction s as [|d s IH]; [contradiction|].
  unfold Py.join_map in *. cbn [flat_map]. rewrite length_app, format_08b_length.
  cbn [List.length]. destruct Hin as [->|Hin].
  - pose proof (wide_size Hc). pose proof (join_format_length_ge s).
    unfold Py.join_map in *. lia.
  - specialize (IH Hin). lia.
Qed.

(** C6, as the code has it -- a character with a code point above 255 is not
    rejected: it is written with all the binary digits of its code point,
    more than 8, and the message is encoded whenever the longer bitstream
    fits; the only refusal is the capacity one. *)
Theorem wide_characters_accepted (pixels : list pixel) (message : pystr) (c : codepoint) :
  In c message -> (255 < c)%N ->
  List.length (Py.format_08b c) = N.to_nat (N.size c)
  /\ 8 < List.length (Py.format_08b c)
  /\ 8 * (List.length message + 9) < List.length (framed_bits message)
  /\ (List.length (framed_bits message) <= 3 * List.length pixels ->
      encode_lsb pixels message = Encoded (embed (framed_bits message) 0 pixels))
  /\ (3 * List.length pixels < List.length (framed_bits message) ->
      encode_lsb pixels message = TooLong (3 * List.length pixels / 8)).
Proof.
  intros Hin Hc. pose proof (wide_size Hc) as Hs. repeat split.
  - rewrite format_08b_length. lia.
  - rewrite format_08b_length. lia.
  - unfold framed_bits.
    pose proof (@join_format_length_wide (message ++ delimiter) c) as H.
    rewrite length_app in H. change (List.length delimiter) with 9 in H.
    apply H; [apply in_or_app; left; exact Hin|exact Hc].
  - apply encode_fits.
  - apply encode_overflows.
Qed.

Lemma wide_characters_accepted_witness :
  List.length (Py.format_08b 256) = 9
  /\ encode_lsb (repeat black 27) [256%N]
     = Encoded (embed (framed_bits [256%N]) 0 (repeat black 27)).
Proof.
  pose proof (@wide_characters_accepted (repeat black 27) [256%N] 256%N
                (or_introl eq_refl) eq_refl) as (H1 & _ & _ & H4 & _).
  split; [exact H1|]. apply H4. vm_compute. lia.
Defined.

(** C6, as stated, fails: the one-character message [chr(256)] is encoded
    into 27 pixels without any error, and the decoder does not recover it. *)
Lemma wide_character_not_rejected :
  exists out,
    In 256%N [256%N] /\ (255 < 256)%N
    /\ encode_lsb (repeat black 27) [256%N] = Encoded out
    /\ decode_lsb out = NotFound.
Proof.
  eexists. split; [left; reflexivity|]. split; [reflexivity|].
  split; vm_compute; reflexivity.
Qed.

End WideCharacters.

(** ** Outcomes of the decoder *)

Section DecoderOutcomes.

Lemma In_firstn (A : Type) (x : A) n (l : list A) : In x (firstn n l) -> In x l.
Proof. intros H. rewrite <- (firstn_skipn n l). apply in_or_app. left. exact H. Qed.

Lemma In_skipn (A : Type) (x : A) n (l : list A) : In x (skipn n l) -> In x l.
Proof. intros H. rewrite <- (firstn_skipn n l). apply in_or_app. right. exact H. Qed.

Lemma decode_outcome_cases o :
  (exists message, decode_outcome o = Found message) \/ decode_outcome o = NotFound.
Proof. destruct o as [m|]; [left; exists m|right]; reflexivity. Qed.

(** C7 -- Decode totality and safety: on every pixel sequence the decoder
    returns a string or [NotFound] and never takes the exception path; in
    particular on every permutation of an encoded sequence. *)
Theorem decode_total :
  (forall pixels : list pixel,
      (exists message, decode_lsb pixels = Found message)
      \/ decode_lsb pixels = NotFound)
  /\ (forall (pixels : list pixel) (message : pystr) (out shuffled : list pixel),
         encode_lsb pixels message = Encoded out ->
         Permutation out shuffled ->
         (exists garbage, decode_lsb shuffled = Found garbage)
         \/ decode_lsb shuffled = NotFound).
Proof.
  split.
  - intros pixels. rewrite decode_lsb_scan. apply decode_outcome_cases.
  - intros pixels message out shuffled _ _. rewrite decode_lsb_scan.
    apply decode_outcome_cases.
Qed.

Lemma decode_total_witness :
  (exists garbage,
      decode_lsb (rev (embed (framed_bits (lit "HI")) 0 (repeat black 30))) = Found garbage)
  \/ decode_lsb (rev (embed (framed_bits (lit "HI")) 0 (repeat black 30))) = NotFound.
Proof.
  apply (proj2 decode_total (repeat black 30) (lit "HI")
               (embed (framed_bits (lit "HI")) 0 (repeat black 30))).
  - vm_compute. reflexivity.
  - apply Permutation_rev.
Defined.

Lemma bits_acc_false (bs : list bool) :
  (forall b, In b bs -> b = false) -> bits_acc bs 0 = 0%N.
Proof.
  induction bs as [|b bs IH]; intros H; [reflexivity|].
  cbn [bits_acc fold_left]. rewrite (H b) by (left; reflexivity).
  apply IH. intros b' Hb'. apply H. right. exact Hb'.
Qed.

Lemma chars_of_false (bits : list bool) c :
  (forall b, In b bits -> b = false) -> In c (chars_of_bits bits) -> c = 0%N.
Proof.
  intros H Hc. unfold chars_of_bits in Hc. apply in_map_iff in Hc.
  destruct Hc as (k & <- & _). apply bits_acc_false.
  intros b Hb. apply H. eapply In_skipn, In_firstn, Hb.
Qed.

Lemma lsb_bits_false (pixels : list pixel) b :
  (forall p j, In p pixels -> j < 3 -> Z.testbit (channel p j) 0 = false) ->
  In b (lsb_bits pixels) -> b = false.
Proof.
  intros H Hb. unfold lsb_bits in Hb. apply in_flat_map in Hb.
  destruct Hb as (p & Hp & Hb). apply in_map_iff in Hb. destruct Hb as (j & <- & Hj).
  apply H; [exact Hp|]. cbn in Hj. lia.
Qed.

Lemma prefix_never_matches (chars : pystr) :
  (forall n, Py.endswith (firstn n chars) delimiter = false) -> scan [] chars = None.
Proof. intros H. apply scan_none. intros n _. apply H. Qed.

(** C5 -- NotFound behaviour: when no prefix of the character stream of the
    least-significant bits ends with the delimiter, the decoder returns
    [NotFound], a normal result and not an error; so it does for the empty
    sequence and for a sequence whose least-significant bits are all zero. *)
Theorem decode_not_found :
  (forall pixels : list pixel,
      (forall n, Py.endswith (firstn n (lsb_chars pixels)) delimiter = false) ->
      decode_lsb pixels = NotFound)
  /\ decode_lsb [] = NotFound
  /\ (forall pixels : list pixel,
         (forall p j, In p pixels -> j < 3 -> Z.testbit (channel p j) 0 = false) ->
         decode_lsb pixels = NotFound).
Proof.
  split; [|split].
  - intros pixels H. rewrite decode_lsb_scan, prefix_never_matches by exact H.
    reflexivity.
  - reflexivity.
  - intros pixels H. rewrite decode_lsb_scan, prefix_never_matches; [reflexivity|].
    intros n. destruct (Py.endswith (firstn n (lsb_chars pixels)) delimiter) eqn:E;
      [|reflexivity].
    apply endswith_inv in E. destruct E as [E _].
    assert (Hin : In 124%N (firstn n (lsb_chars pixels))).
    { rewrite E. apply in_or_app. right. cbn. tauto. }
    apply In_firstn in Hin. apply chars_of_false in Hin; [discriminate|].
    intros b Hb. eapply lsb_bits_false; eassumption.
Qed.

Lemma decode_not_found_witness :
  decode_lsb [(10, 20, 31); (40, 51, 60); (71, 80, 90)]%Z = NotFound
  /\ decode_lsb (repeat (254, 2, 0)%Z 100) = NotFound.
Proof.
  split.
  - apply (proj1 decode_not_found). intros [|[|n]]; reflexivity.
  - apply (proj2 (proj2 decode_not_found)). intros p j Hp Hj.
    apply repeat_spec in Hp. subst p.
    destruct j as [|[|[|j]]]; [reflexivity|reflexivity|reflexivity|lia].
Defined.

End DecoderOutcomes.

(** ** Incomplete trailing group *)

Section TrailingBits.

Lemma chars_of_bits_trailing (whole other : list bool) :
  List.length whole mod 8 = 0 -> List.length other < 8 ->
  chars_of_bits (whole ++ other) = chars_of_bits whole.
Proof.
  intros Hw Ho. unfold chars_of_bits. rewrite length_app.
  pose proof (Nat.div_mod_eq (List.length whole) 8) as Hd. rewrite Hw in Hd.
  assert (Hq : (List.length whole + List.length other) / 8 = List.length whole / 8).
  { rewrite Hd at 1. rewrite Nat.add_0_r, Nat.mul_comm, Nat.div_add_l by lia.
    rewrite (Nat.div_small (List.length other)) by exact Ho. lia. }
  rewrite Hq. apply map_ext_in. intros k Hk. apply in_seq in Hk.
  rewrite skipn_app, firstn_app.
  replace (8 * k - List.length whole) with 0 by lia.
  replace (8 - List.length (skipn (8 * k) whole)) with 0 by (rewrite length_skipn; lia).
  cbn [skipn firstn]. rewrite app_nil_r. reflexivity.
Qed.

(** C10 -- When the channel count is not a multiple of 8, the final group of
    fewer than 8 extracted bits is ignored: the decoder's result is that of
    the complete groups alone, whatever the trailing bits are, and it is a
    string or [NotFound], never an error. *)
Theorem trailing_bits_ignored (pixels : list pixel) :
  (3 * List.length pixels) mod 8 <> 0 ->
  let bits := lsb_bits pixels in
  let whole := firstn (8 * (List.length bits / 8)) bits in
  let trailing := skipn (8 * (List.length bits / 8)) bits in
  bits = whole ++ trailing
  /\ 0 < List.length trailing < 8
  /\ lsb_chars pixels = chars_of_bits whole
  /\ decode_lsb pixels = decode_text (map digit whole)
  /\ (forall (others : list pixel) (other : list bool),
         lsb_bits others = whole ++ other -> List.length other < 8 ->
         decode_lsb others = decode_lsb pixels)
  /\ ((exists message, decode_lsb pixels = Found message)
      \/ decode_lsb pixels = NotFound).
Proof.
  intros Hmod bits whole trailing.
  assert (Hlen : List.length bits = 3 * List.length pixels) by apply lsb_bits_length.
  pose proof (Nat.div_mod_eq (List.length bits) 8) as Hd.
  pose proof (Nat.mod_upper_bound (List.length bits) 8 ltac:(lia)) as Hu.
  assert (Hsplit : bits = whole ++ trailing) by (symmetry; apply firstn_skipn).
  assert (Hw : List.length whole = 8 * (List.length bits / 8))
    by (unfold whole; rewrite length_firstn; lia).
  assert (Ht : List.length trailing = List.length bits mod 8)
    by (unfold trailing; rewrite length_skipn; lia).
  assert (Hw8 : List.length whole mod 8 = 0)
    by (rewrite Hw, Nat.mul_comm; apply Nat.Div0.mod_mul).
  assert (Hchars : lsb_chars pixels = chars_of_bits whole).
  { unfold lsb_chars. fold bits. rewrite Hsplit at 1.
    apply chars_of_bits_trailing; [exact Hw8|lia]. }
  split; [exact Hsplit|]. split; [rewrite Ht, Hlen in *; lia|].
  split; [exact Hchars|]. split; [|split].
  - rewrite decode_lsb_scan, decode_text_scan, Hchars. reflexivity.
  - intros others other Ho Hlo. rewrite !decode_lsb_scan, Hchars.
    unfold lsb_chars. rewrite Ho, chars_of_bits_trailing by assumption. reflexivity.
  - rewrite decode_lsb_scan. apply decode_outcome_cases.
Qed.

Lemma trailing_bits_ignored_witness :
  lsb_bits [(1, 0, 1); (1, 1, 0); (0, 1, 1)]%Z
  = [true; false; true; true; true; false; false; true] ++ [true]
  /\ decode_lsb [(1, 0, 1); (1, 1, 0); (0, 1, 0)]%Z
     = decode_lsb [(1, 0, 1); (1, 1, 0); (0, 1, 1)]%Z.
Proof.
  pose proof (@trailing_bits_ignored [(1, 0, 1); (1, 1, 0); (0, 1, 1)]%Z
                ltac:(cbn; lia)) as (H1 & _ & _ & _ & H5 & _).
  split; [exact H1|].
  apply (H5 [(1, 0, 1); (1, 1, 0); (0, 1, 0)]%Z [false]); [reflexivity|cbn; lia].
Defined.

End TrailingBits.

(** ** The scenario of the message HI *)

Section Scenario.

(** C8, as the code has it -- "HI" and the delimiter are 88 bits and need
    30 pixels: encoding into 30 all-zero pixels succeeds, the first 16
    least-significant bits are 0100100001001001 in R, G, B order, the next
    72 are the delimiter's bits, the last two channels are unchanged, and
    decoding returns "HI". *)
Theorem scenario_HI :
  exists out,
    encode_lsb (repeat black 30) (lit "HI") = Encoded out
    /\ List.length out = 30
    /\ firstn 16 (lsb_bits out) = bits_of_numeral "0100100001001001"
    /\ firstn 72 (skipn 16 (lsb_bits out)) = bitstream delimiter
    /\ skipn 88 (lsb_bits out) = [false; false]
    /\ (forall p j, In p out -> Z.land (channel p j) 254 = 0%Z)
    /\ decode_lsb out = Found (lit "HI").
Proof.
  eexists. split; [vm_compute; reflexivity|].
  repeat split; try (vm_compute; reflexivity).
  intros p j Hp. cbv in Hp.
  destruct j as [|[|j]];
    repeat (destruct Hp as [<-|Hp]; [reflexivity|]); contradiction.
Qed.

(** C8, as stated, fails: 10 pixels offer 30 channels for 88 bits, and the
    encoder refuses the message. *)
Lemma scenario_HI_10_pixels :
  encode_lsb (repeat black 10) (lit "HI") = TooLong 3
  /\ List.length (framed_bits (lit "HI")) = 88
  /\ forall out, encode_lsb (repeat black 10) (lit "HI") <> Encoded out.
Proof.
  split; [vm_compute; reflexivity|]. split; [reflexivity|].
  intros out H. vm_compute in H. discriminate.
Qed.

End Scenario.

(** ** Channels written by the encoder *)

Section Channels.

Lemma b2z_digit b : (Z.of_N (digit b) - 48 = Z.b2z b)%Z.
Proof. destruct b; reflexivity. Qed.

Lemma embed_channel_bit (binary_message : pystr) c j b :
  nth_error binary_message j = Some (digit b) ->
  embed_channel binary_message c j = Z.lor (Z.land c 254) (Z.b2z b).
Proof.
  intros H. unfold embed_channel.
  assert (Hj : j < List.length binary_message) by (apply nth_error_Some; congruence).
  replace (j <? List.length binary_message) with true by (symmetry; apply Nat.ltb_lt; exact Hj).
  pose proof (nth_error_nth binary_message j 48%N H) as Hn.
  unfold pystr, codepoint in *. rewrite Hn. apply f_equal, b2z_digit.
Qed.

Lemma embed_channel_beyond (binary_message : pystr) c j :
  List.length binary_message <= j -> embed_channel binary_message c j = c.
Proof.
  intros H. unfold embed_channel.
  replace (j <? List.length binary_message) with false by (symmetry; apply Nat.ltb_ge; exact H).
  reflexivity.
Qed.

Lemma set_lsb_high c b : Z.land (Z.lor (Z.land c 254) (Z.b2z b)) 254 = Z.land c 254.
Proof.
  rewrite Z.land_lor_distr_l, <- Z.land_assoc.
  change (Z.land 254 254) with 254%Z.
  replace (Z.land (Z.b2z b) 254) with 0%Z by (destruct b; reflexivity).
  apply Z.lor_0_r.
Qed.

Lemma set_lsb_bit0 c b : Z.testbit (Z.lor (Z.land c 254) (Z.b2z b)) 0 = b.
Proof.
  rewrite Z.lor_spec, Z.land_spec. change (Z.testbit 254 0) with false.
  rewrite andb_false_r. destruct b; reflexivity.
Qed.

Lemma set_lsb_bits c b m :
  valid_channel c -> (0 < m)%Z ->
  Z.testbit (Z.lor (Z.land c 254) (Z.b2z b)) m = Z.testbit c m.
Proof.
  intros Hc Hm. rewrite Z.lor_spec, Z.land_spec.
  replace (Z.testbit (Z.b2z b) m) with false
    by (destruct b; destruct m; try lia; reflexivity).
  rewrite orb_false_r. unfold valid_channel in Hc.
  destruct (Z.lt_ge_cases m 8) as [Hlt|Hge].
  - replace (Z.testbit 254 m) with true; [apply andb_true_r|].
    assert (m = 1 \/ m = 2 \/ m = 3 \/ m = 4 \/ m = 5 \/ m = 6 \/ m = 7)%Z as Hcases by lia.
    repeat (destruct Hcases as [->|Hcases]; [reflexivity|]). subst m. reflexivity.
  - replace (Z.testbit c m) with false; [reflexivity|].
    symmetry. rewrite <- (Z.mod_small c (2 ^ 8)) by (change (2 ^ 8)%Z with 256%Z; lia).
    apply Z.mod_pow2_bits_high. lia.
Qed.

Lemma embed_channel_high (binary_message : pystr) c j :
  Forall is_bit binary_message ->
  Z.land (embed_channel binary_message c j) 254 = Z.land c 254.
Proof.
  intros Hb. destruct (Nat.lt_ge_cases j (List.length binary_message)) as [Hj|Hj].
  - rewrite Forall_forall in Hb.
    destruct (is_bit_inv (Hb _ (nth_In binary_message 48%N Hj))) as [b Hd].
    rewrite (@embed_channel_bit binary_message c j b).
    + apply set_lsb_high.
    + rewrite (nth_error_nth' binary_message 48%N Hj), Hd. reflexivity.
  - rewrite embed_channel_beyond by exact Hj. reflexivity.
Qed.

Lemma encoded_channel pixels message out q j :
  encode_lsb pixels message = Encoded out ->
  q < List.length pixels -> j < 3 ->
  channel (nth q out black) j
  = embed_channel (framed_bits message) (channel (nth q pixels black) j) (3 * q + j).
Proof.
  intros H Hq Hj. apply encode_Encoded_inv in H. destruct H as [-> _].
  rewrite embed_nth by exact Hq. rewrite embed_pixel_channel by exact Hj. reflexivity.
Qed.

Lemma set_lsb_valid c b :
  valid_channel c -> valid_channel (Z.lor (Z.land c 254) (Z.b2z b)).
Proof.
  intros [Hlo Hhi]. rewrite <- (Z2N.id c Hlo).
  set (in_range := fun n : N =>
         let v := Z.lor (Z.land (Z.of_N n) 254) (Z.b2z b) in
         ((0 <=? v) && (v <=? 255))%Z).
  assert (H : in_range (Z.to_N c) = true).
  { apply below_256; [destruct b; vm_compute; reflexivity|lia]. }
  unfold in_range in H. apply andb_true_iff in H. unfold valid_channel. lia.
Qed.

Lemma embed_channel_valid (binary_message : pystr) c j :
  Forall is_bit binary_message -> valid_channel c ->
  valid_channel (embed_channel binary_message c j).
Proof.
  intros Hb Hc. destruct (Nat.lt_ge_cases j (List.length binary_message)) as [Hj|Hj].
  - rewrite Forall_forall in Hb.
    destruct (is_bit_inv (Hb _ (nth_In binary_message 48%N Hj))) as [b Hd].
    rewrite (@embed_channel_bit binary_message c j b).
    + apply set_lsb_valid, Hc.
    + rewrite (nth_error_nth' binary_message 48%N Hj), Hd. reflexivity.
  - rewrite embed_channel_beyond by exact Hj. exact Hc.
Qed.

(** The pixels handed to the saver are pixels of an RGB image again. *)
Lemma encode_valid pixels message out :
  encode_lsb pixels message = Encoded out ->
  Forall valid_pixel pixels -> Forall valid_pixel out.
Proof.
  intros H Hv. apply encode_Encoded_inv in H. destruct H as [-> _].
  pose proof (framed_bits_digits message) as Hb. generalize 0.
  induction Hv as [|[[r g] b] rest (Hr & Hg & Hbl) _ IH]; intros k; cbn [embed];
    constructor.
  - cbn [embed_pixel valid_pixel]. repeat split; apply embed_channel_valid; assumption.
  - apply IH.
Qed.

(** C4 -- Non-mutation frame property: the output of a successful encode has
    the length and order of the input, every channel keeps its seven
    high-order bits ([c & 0xFE]), and every channel beyond the end of the
    framed bitstream is copied unchanged. *)
Theorem encode_frame (pixels : list pixel) (message : pystr) (out : list pixel) :
  encode_lsb pixels message = Encoded out ->
  List.length out = List.length pixels
  /\ forall q j, q < List.length pixels -> j < 3 ->
       Z.land (channel (nth q out black) j) 254
       = Z.land (channel (nth q pixels black) j) 254
       /\ (List.length (framed_bits message) <= 3 * q + j ->
           channel (nth q out black) j = channel (nth q pixels black) j).
Proof.
  intros H. split.
  - apply encode_Encoded_inv in H. destruct H as [-> _]. apply embed_length.
  - intros q j Hq Hj. rewrite (@encoded_channel pixels message out q j H Hq Hj). split.
    + apply embed_channel_high, framed_bits_digits.
    + apply embed_channel_beyond.
Qed.

Lemma encode_frame_witness :
  List.length (embed (framed_bits (lit "HI")) 0 (repeat (255, 255, 255)%Z 30)) = 30
  /\ Z.land (channel (nth 0 (embed (framed_bits (lit "HI")) 0 (repeat (255, 255, 255)%Z 30))
                         black) 0) 254 = 254%Z
  /\ channel (nth 29 (embed (framed_bits (lit "HI")) 0 (repeat (255, 255, 255)%Z 30)) black) 2
     = 255%Z.
Proof.
  pose proof (@encode_frame (repeat (255, 255, 255)%Z 30) (lit "HI")
                (embed (framed_bits (lit "HI")) 0 (repeat (255, 255, 255)%Z 30))
                ltac:(vm_compute; reflexivity)) as [Hlen Hch].
  split; [exact Hlen|]. split.
  - apply (proj1 (Hch 0 0 ltac:(cbn; lia) ltac:(lia))).
  - apply (proj2 (Hch 29 2 ltac:(cbn; lia) ltac:(lia))). vm_compute. lia.
Defined.

(** C3 -- Bit placement: after a successful encode, bit [i] of the framed
    bitstream sits in channel [i mod 3] of pixel [i div 3], as the
    least-significant bit, the channel's other bits being those of the
    input; for a message of single-byte characters the bitstream is 8 bits
    per character, most significant bit first, in message order. *)
Theorem encode_bit_placement (pixels : list pixel) (message : pystr) (out : list pixel) :
  encode_lsb pixels message = Encoded out ->
  (Forall single_byte message ->
   framed_bits message = map digit (bitstream (message ++ delimiter)))
  /\ (forall i, i < List.length (framed_bits message) ->
        exists b, nth_error (framed_bits message) i = Some (digit b))
  /\ (forall i b,
        nth_error (framed_bits message) i = Some (digit b) ->
        let c := channel (nth (i / 3) pixels black) (i mod 3) in
        let c' := channel (nth (i / 3) out black) (i mod 3) in
        c' = Z.lor (Z.land c 254) (Z.b2z b)
        /\ Z.testbit c' 0 = b
        /\ (forall m, valid_channel c -> (0 < m)%Z -> Z.testbit c' m = Z.testbit c m)).
Proof.
  intros H. split; [apply framed_bits_single_byte|]. split.
  - intros i Hi. pose proof (framed_bits_digits message) as Hb.
    rewrite Forall_forall in Hb.
    destruct (is_bit_inv (Hb _ (nth_In (framed_bits message) 48%N Hi))) as [b Hd].
    exists b. rewrite (nth_error_nth' (framed_bits message) 48%N Hi), Hd. reflexivity.
  - intros i b Hi c c'.
    assert (Hlt : i < List.length (framed_bits message)) by (apply nth_error_Some; congruence).
    pose proof (proj2 (encode_Encoded_inv _ _ H)) as Hcap.
    pose proof (Nat.div_mod_eq i 3) as Hd.
    pose proof (Nat.mod_upper_bound i 3 ltac:(lia)) as Hu.
    assert (Hc' : c' = Z.lor (Z.land c 254) (Z.b2z b)).
    { unfold c', c. rewrite (@encoded_channel pixels message out (i / 3) (i mod 3) H) by lia.
      rewrite <- Hd. apply embed_channel_bit, Hi. }
    split; [exact Hc'|]. rewrite Hc'. split.
    + apply set_lsb_bit0.
    + intros m Hv Hm. apply set_lsb_bits; assumption.
Qed.

Lemma encode_bit_placement_witness :
  channel (nth 0 (embed (framed_bits (lit "HI")) 0 (repeat (255, 255, 255)%Z 30)) black) 1
  = Z.lor (Z.land 255 254) 1
  /\ Z.testbit
       (channel (nth 0 (embed (framed_bits (lit "HI")) 0 (repeat (255, 255, 255)%Z 30)) black) 1)
       0 = true.
Proof.
  pose proof (@encode_bit_placement (repeat (255, 255, 255)%Z 30) (lit "HI")
                (embed (framed_bits (lit "HI")) 0 (repeat (255, 255, 255)%Z 30))
                ltac:(vm_compute; reflexivity)) as (_ & _ & H).
  destruct (H 1 true ltac:(reflexivity)) as (H1 & H2 & _).
  split; [exact H1|exact H2].
Defined.

End Channels.

(** ** Round trip *)

Section RoundTrip.

Lemma delimiter_chars : delimiter = [124; 124; 124; 69; 78; 68; 124; 124; 124]%N.
Proof. reflexivity. Qed.

Lemma delimiter_single_byte : Forall single_byte delimiter.
Proof. repeat constructor; unfold single_byte; cbn; lia. Qed.

(** The appended delimiter is the first occurrence of the delimiter in the
    framed message. *)
Lemma no_early_occurrence (message : pystr) :
  contains message delimiter = false ->
  Py.endswith message (lit "|||END") = false ->
  Py.endswith message (lit "|||END|") = false ->
  Py.endswith message (lit "|||END||") = false ->
  forall j, j < List.length message ->
            Py.startswith (skipn j (message ++ delimiter)) delimiter = false.
Proof.
  intros Hc H6 H7 H8 j Hj.
  destruct (Py.startswith (skipn j (message ++ delimiter)) delimiter) eqn:E;
    [exfalso|reflexivity].
  rewrite skipn_app in E. replace (j - List.length message) with 0 in E by lia.
  cbn [skipn] in E.
  assert (HM : message = firstn j message ++ skipn j message)
    by (symmetry; apply firstn_skipn).
  assert (Hlen : 0 < List.length (skipn j message)) by (rewrite length_skipn; lia).
  assert (Hsub : Py.startswith (skipn j message) delimiter = false).
  { destruct (Py.startswith (skipn j message) delimiter) eqn:E'; [|reflexivity].
    rewrite (@contains_skipn message delimiter j) in Hc; [discriminate|lia|exact E']. }
  pose proof (endswith_app (firstn j message) (skipn j message)) as Hsuf.
  rewrite <- HM in Hsuf.
  apply startswith_inv in E. change (List.length delimiter) with 9 in E.
  rewrite delimiter_chars in E, Hsub.
  destruct (skipn j message)
    as [|x1 [|x2 [|x3 [|x4 [|x5 [|x6 [|x7 [|x8 [|x9 t]]]]]]]]];
    cbn [app skipn List.length] in E, Hlen; try lia;
    inversion E; subst.
  - exact (eq_true_false_abs _ Hsuf H6).
  - exact (eq_true_false_abs _ Hsuf H7).
  - exact (eq_true_false_abs _ Hsuf H8).
  - cbn in Hsub. discriminate.
Qed.

Lemma no_early_match (message : pystr) :
  (forall j, j < List.length message ->
             Py.startswith (skipn j (message ++ delimiter)) delimiter = false) ->
  forall n, n <= List.length message + 8 ->
            Py.endswith (firstn n (message ++ delimiter)) delimiter = false.
Proof.
  intros H n Hn.
  destruct (Py.endswith (firstn n (message ++ delimiter)) delimiter) eqn:E;
    [exfalso|reflexivity].
  apply endswith_inv in E. destruct E as [E Hlen].
  assert (Hfl : List.length (firstn n (message ++ delimiter)) = n).
  { rewrite length_firstn, length_app. change (List.length delimiter) with 9. lia. }
  rewrite Hfl in E, Hlen. change (List.length delimiter) with 9 in E, Hlen.
  rewrite firstn_firstn in E. replace (Nat.min (n - 9) n) with (n - 9) in E by lia.
  assert (Hs : skipn (n - 9) (message ++ delimiter)
               = delimiter ++ skipn n (message ++ delimiter)).
  { rewrite <- (firstn_skipn n (message ++ delimiter)) at 1. rewrite E at 1.
    rewrite <- app_assoc, skipn_app.
    assert (Hp : List.length (firstn (n - 9) (message ++ delimiter)) = n - 9).
    { rewrite length_firstn, length_app. change (List.length delimiter) with 9. lia. }
    rewrite Hp, Nat.sub_diag, skipn_all2 by lia. reflexivity. }
  specialize (H (n - 9) ltac:(lia)). rewrite Hs, startswith_app in H. discriminate.
Qed.

Lemma chars_of_bits_group (group rest : list bool) :
  List.length group = 8 ->
  chars_of_bits (group ++ rest) = byte_of_bits group :: chars_of_bits rest.
Proof.
  intros Hg. unfold chars_of_bits. rewrite length_app, Hg.
  replace (8 + List.length rest) with (1 * 8 + List.length rest) by lia.
  rewrite Nat.div_add_l by lia. cbn [Nat.add seq map].
  rewrite Nat.mul_0_r. cbn [skipn].
  rewrite firstn_app, Hg, Nat.sub_diag, firstn_all2 by lia.
  cbn [firstn]. rewrite app_nil_r. f_equal.
  rewrite <- seq_shift, map_map. apply map_ext. intros k.
  rewrite skipn_app, Hg, skipn_all2 by lia.
  replace (8 * S k - 8) with (8 * k) by lia. reflexivity.
Qed.

Lemma chars_of_bitstream (s : pystr) (rest : list bool) :
  Forall single_byte s ->
  chars_of_bits (bitstream s ++ rest) = s ++ chars_of_bits rest.
Proof.
  induction 1 as [|c s Hc _ IH]; [reflexivity|].
  unfold bitstream in *. cbn [flat_map]. rewrite <- app_assoc.
  rewrite chars_of_bits_group by apply byte_bits_length.
  rewrite byte_of_byte_bits by exact Hc. rewrite IH. reflexivity.
Qed.

Lemma lsb_bits_nth (pixels : list pixel) : forall q j,
  q < List.length pixels -> j < 3 ->
  nth (3 * q + j) (lsb_bits pixels) false
  = Z.testbit (channel (nth q pixels black) j) 0.
Proof.
  induction pixels as [|p rest IH]; intros q j Hq Hj; [cbn in Hq; lia|].
  unfold lsb_bits in *. cbn [flat_map map app].
  destruct q as [|q].
  - destruct j as [|[|[|j]]]; try lia; reflexivity.
  - replace (3 * S q + j) with (S (S (S (3 * q + j)))) by lia.
    cbn [nth]. apply IH; [cbn in Hq; lia|exact Hj].
Qed.

Lemma embed_channel_lsb (bits : list bool) c i :
  Z.testbit (embed_channel (map digit bits) c i) 0
  = if i <? List.length bits then nth i bits false else Z.testbit c 0.
Proof.
  destruct (Nat.ltb_spec i (List.length bits)) as [Hi|Hi].
  - rewrite (@embed_channel_bit (map digit bits) c i (nth i bits false)).
    + apply set_lsb_bit0.
    + rewrite nth_error_map, (nth_error_nth' bits false Hi). reflexivity.
  - rewrite embed_channel_beyond by (rewrite length_map; exact Hi). reflexivity.
Qed.

(** The least-significant bits of the encoder's output: the written bits,
    then those of the input. *)
Lemma lsb_bits_embed (bits : list bool) (pixels : list pixel) :
  List.length bits <= 3 * List.length pixels ->
  lsb_bits (embed (map digit bits) 0 pixels)
  = bits ++ skipn (List.length bits) (lsb_bits pixels).
Proof.
  intros Hcap. apply (nth_ext _ _ false false).
  - rewrite length_app, length_skipn, !lsb_bits_length, embed_length. lia.
  - intros i Hi. rewrite lsb_bits_length, embed_length in Hi.
    pose proof (Nat.div_mod_eq i 3) as Hd.
    pose proof (Nat.mod_upper_bound i 3 ltac:(lia)) as Hu.
    assert (Hq : i / 3 < List.length pixels) by lia.
    rewrite Hd at 1. rewrite lsb_bits_nth by (rewrite ?embed_length; lia).
    rewrite embed_nth by exact Hq. rewrite embed_pixel_channel by exact Hu.
    cbn [Nat.add]. rewrite <- Hd, embed_channel_lsb.
    destruct (Nat.ltb_spec i (List.length bits)) as [Hlt|Hge].
    + rewrite app_nth1 by exact Hlt. reflexivity.
    + rewrite app_nth2 by exact Hge. rewrite nth_skipn.
      replace (List.length bits + (i - List.length bits)) with i by lia.
      pose proof (@lsb_bits_nth pixels (i / 3) (i mod 3) Hq Hu) as Hn.
      rewrite <- Hd in Hn. symmetry. exact Hn.
Qed.

Lemma scan_framed (message rest : pystr) :
  (forall j, j < List.length message ->
             Py.startswith (skipn j (message ++ delimiter)) delimiter = false) ->
  scan [] ((message ++ delimiter) ++ rest) = Some message.
Proof.
  intros H.
  assert (Hd : message ++ delimiter = (message ++ firstn 8 delimiter) ++ [124%N])
    by (rewrite <- app_assoc; reflexivity).
  rewrite Hd at 1. rewrite <- app_assoc. rewrite scan_skip.
  - cbn [app scan]. unfold pystr, codepoint in *. rewrite <- Hd, endswith_app.
    rewrite replace_suffix; [reflexivity|discriminate|exact H].
  - intros n Hn. rewrite length_app in Hn. change (List.length (firstn 8 delimiter)) with 8 in Hn.
    cbn [app].
    replace (firstn n (message ++ firstn 8 delimiter))
      with (firstn n (message ++ delimiter)).
    + apply no_early_match; [exact H|lia].
    + rewrite Hd, firstn_app.
      replace (n - List.length (message ++ firstn 8 delimiter)) with 0
        by (rewrite length_app; change (List.length (firstn 8 delimiter)) with 8; lia).
      cbn [firstn]. apply app_nil_r.
Qed.

Lemma decode_embed (pixels : list pixel) (message : pystr) :
  Forall single_byte message ->
  (forall j, j < List.length message ->
             Py.startswith (skipn j (message ++ delimiter)) delimiter = false) ->
  8 * (List.length message + 9) <= 3 * List.length pixels ->
  decode_lsb (embed (framed_bits message) 0 pixels) = Found message.
Proof.
  intros Hm Hocc Hcap.
  rewrite decode_lsb_scan. unfold lsb_chars.
  rewrite framed_bits_single_byte by exact Hm.
  rewrite lsb_bits_embed
    by (rewrite bitstream_length, length_app; change (List.length delimiter) with 9; exact Hcap).
  rewrite chars_of_bitstream
    by (apply Forall_app; split; [exact Hm|exact delimiter_single_byte]).
  rewrite scan_framed by exact Hocc. reflexivity.
Qed.

(** C1, as the code has it -- Round-trip law: for a message of single-byte
    characters that neither contains the delimiter nor ends with one of
    "|||END", "|||END|", "|||END||", and pixels offering at least
    [8 * (len(message) + 9)] channels, encoding succeeds and decoding the
    result returns exactly the message. *)
Theorem round_trip (pixels : list pixel) (message : pystr) :
  Forall single_byte message ->
  contains message delimiter = false ->
  Py.endswith message (lit "|||END") = false ->
  Py.endswith message (lit "|||END|") = false ->
  Py.endswith message (lit "|||END||") = false ->
  8 * (List.length message + 9) <= 3 * List.length pixels ->
  exists out,
    encode_lsb pixels message = Encoded out /\ decode_lsb out = Found message.
Proof.
  intros Hm Hc H6 H7 H8 Hcap. exists (embed (framed_bits message) 0 pixels). split.
  - apply encode_fits. rewrite framed_bits_length by exact Hm. exact Hcap.
  - apply decode_embed; [exact Hm| |exact Hcap].
    apply no_early_occurrence; assumption.
Qed.

Lemma round_trip_witness :
  exists out,
    encode_lsb (repeat (200, 100, 51)%Z 40) (lit "CTF{|}") = Encoded out
    /\ decode_lsb out = Found (lit "CTF{|}").
Proof.
  apply round_trip.
  - repeat constructor; unfold single_byte; cbn; lia.
  - reflexivity.
  - reflexivity.
  - reflexivity.
  - reflexivity.
  - vm_compute. lia.
Defined.

(** C1, as stated, fails: "|||END" is made of single-byte characters, does
    not contain the delimiter and fits into 40 pixels, yet the decoder
    returns the empty string, the delimiter being matched across the end of
    the message. *)
Lemma round_trip_overlap :
  Forall single_byte (lit "|||END")
  /\ contains (lit "|||END") delimiter = false
  /\ 8 * (List.length (lit "|||END") + 9) <= 3 * List.length (repeat black 40)
  /\ exists out,
       encode_lsb (repeat black 40) (lit "|||END") = Encoded out
       /\ decode_lsb out = Found (lit "")
       /\ decode_lsb out <> Found (lit "|||END").
Proof.
  split; [repeat constructor; unfold single_byte; cbn; lia|].
  split; [reflexivity|]. split; [vm_compute; lia|].
  eexists. split; [vm_compute; reflexivity|].
  split; [vm_compute; reflexivity|]. vm_compute. discriminate.
Qed.

End RoundTrip.

(** ** The decoder's result *)

Section DecoderResult.

Lemma startswith_prefix_match (s d : pystr) j :
  d <> [] ->
  Py.startswith (skipn j s) d = true ->
  Py.endswith (firstn (j + List.length d) s) d = true
  /\ j + List.length d <= List.length s.
Proof.
  intros Hd H. apply startswith_inv in H.
  assert (Hl : List.length d <= List.length (skipn j s))
    by (rewrite H, length_app; lia).
  rewrite length_skipn in Hl.
  assert (0 < List.length d) by (destruct d; [congruence|cbn; lia]).
  split; [|lia].
  assert (Hj : List.length (firstn j s) = j) by (rewrite length_firstn; lia).
  rewrite <- (firstn_skipn j s) at 1. rewrite <- Hj at 1.
  rewrite firstn_app_2, H, firstn_app, Nat.sub_diag, firstn_all.
  cbn [firstn]. rewrite app_nil_r. apply endswith_app.
Qed.

Lemma scan_Some_inv (chars : pystr) : forall message m,
  scan message chars = Some m ->
  exists k, 0 < k <= List.length chars
    /\ Py.endswith (message ++ firstn k chars) delimiter = true
    /\ (forall n, 0 < n < k -> Py.endswith (message ++ firstn n chars) delimiter = false)
    /\ m = Py.replace (message ++ firstn k chars) delimiter [].
Proof.
  induction chars as [|c rest IH]; intros message m H; [discriminate|].
  cbn [scan] in H.
  destruct (Py.endswith (message ++ [c]) delimiter) eqn:E.
  - exists 1. cbn [firstn List.length]. repeat split; try lia; try exact E.
    congruence.
  - apply IH in H. destruct H as (k & Hk & Hend & Hearly & Hm).
    rewrite <- app_assoc in Hend, Hm. exists (S k). cbn [List.length firstn].
    repeat split; try lia; try assumption.
    intros [|n] Hn; [lia|]. destruct n as [|n]; [exact E|].
    cbn [firstn]. specialize (Hearly (S n) ltac:(lia)).
    rewrite <- app_assoc in Hearly. exact Hearly.
Qed.

Lemma scan_None_inv (chars : pystr) : forall message,
  scan message chars = None ->
  forall n, 0 < n <= List.length chars ->
            Py.endswith (message ++ firstn n chars) delimiter = false.
Proof.
  induction chars as [|c rest IH]; intros message H n Hn; [cbn in Hn; lia|].
  cbn [scan] in H.
  destruct (Py.endswith (message ++ [c]) delimiter) eqn:E; [discriminate|].
  destruct n as [|[|n]]; [lia|exact E|].
  cbn [firstn]. specialize (IH _ H (S n) ltac:(cbn in Hn; lia)).
  rewrite <- app_assoc in IH. exact IH.
Qed.

Lemma endswith_nil_delimiter : Py.endswith [] delimiter = false.
Proof. reflexivity. Qed.

Lemma prefix_free_occurrence (m rest : pystr) :
  (forall n, n < List.length m + 9 ->
             Py.endswith (firstn n ((m ++ delimiter) ++ rest)) delimiter = false) ->
  forall j, j < List.length m ->
            Py.startswith (skipn j (m ++ delimiter)) delimiter = false.
Proof.
  intros H j Hj.
  destruct (Py.startswith (skipn j (m ++ delimiter)) delimiter) eqn:E; [exfalso|reflexivity].
  apply startswith_prefix_match in E; [|discriminate].
  change (List.length delimiter) with 9 in E. destruct E as [E _].
  specialize (H (j + 9) ltac:(lia)). rewrite firstn_app in H.
  replace (j + 9 - List.length (m ++ delimiter)) with 0 in H
    by (rewrite length_app; change (List.length delimiter) with 9; lia).
  cbn [firstn] in H. rewrite app_nil_r in H. congruence.
Qed.

(** A found message is what precedes the first prefix of the character
    stream that ends with the delimiter. *)
Lemma scan_Some_prefix (chars m : pystr) :
  scan [] chars = Some m ->
  exists rest,
    chars = (m ++ delimiter) ++ rest
    /\ forall n, n < List.length m + 9 ->
                 Py.endswith (firstn n chars) delimiter = false.
Proof.
  intros H. apply scan_Some_inv in H. cbn [app] in H.
  destruct H as (k & Hk & Hend & Hearly & Hm).
  assert (Hlen : List.length (firstn k chars) = k) by (rewrite length_firstn; lia).
  apply endswith_inv in Hend. rewrite Hlen in Hend.
  change (List.length delimiter) with 9 in Hend. destruct Hend as [Hend Hk9].
  rewrite firstn_firstn in Hend. replace (Nat.min (k - 9) k) with (k - 9) in Hend by lia.
  set (x := firstn (k - 9) chars) in *.
  assert (Hx : List.length x = k - 9) by (unfold x; rewrite length_firstn; lia).
  assert (Hchars : chars = (x ++ delimiter) ++ skipn k chars)
    by (rewrite <- Hend; symmetry; apply firstn_skipn).
  assert (Hfree : forall n, n < List.length x + 9 ->
                            Py.endswith (firstn n chars) delimiter = false).
  { intros [|n] Hn; [exact endswith_nil_delimiter|]. apply Hearly. lia. }
  assert (Hmx : m = x).
  { rewrite Hm, Hend. apply replace_suffix; [discriminate|].
    apply (@prefix_free_occurrence x (skipn k chars)). rewrite <- Hchars. exact Hfree. }
  rewrite Hmx. exists (skipn k chars). split; assumption.
Qed.

Lemma scan_prefix_Some (m rest : pystr) :
  (forall n, n < List.length m + 9 ->
             Py.endswith (firstn n ((m ++ delimiter) ++ rest)) delimiter = false) ->
  scan [] ((m ++ delimiter) ++ rest) = Some m.
Proof. intros H. apply scan_framed. apply (@prefix_free_occurrence m rest H). Qed.

Lemma scan_None_prefix (chars : pystr) :
  scan [] chars = None ->
  forall n, Py.endswith (firstn n chars) delimiter = false.
Proof.
  intros H n. destruct n as [|n]; [exact endswith_nil_delimiter|].
  destruct (Nat.le_gt_cases (S n) (List.length chars)) as [Hle|Hgt].
  - apply (@scan_None_inv chars [] H (S n)). lia.
  - rewrite firstn_all2 by lia. destruct chars as [|c chars]; [exact endswith_nil_delimiter|].
    rewrite <- (firstn_all (c :: chars)).
    apply (@scan_None_inv (c :: chars) [] H (List.length (c :: chars))).
    cbn [List.length]. lia.
Qed.

Lemma decode_outcome_Found o m : decode_outcome o = Found m -> o = Some m.
Proof. destruct o; cbn; congruence. Qed.

Lemma decode_outcome_NotFound o : decode_outcome o = NotFound -> o = None.
Proof. destruct o; cbn; congruence. Qed.

End DecoderResult.

(** ** What the decoder finds *)

Section DecoderFinds.

Lemma chars_of_bits_bytes (bits : list bool) : Forall single_byte (chars_of_bits bits).
Proof.
  apply Forall_forall. intros c Hc. unfold chars_of_bits in Hc.
  apply in_map_iff in Hc. destruct Hc as (k & <- & Hk). apply in_seq in Hk.
  pose proof (Nat.div_mod_eq (List.length bits) 8) as Hd.
  assert (Hg : List.length (firstn 8 (skipn (8 * k) bits)) = 8)
    by (rewrite group_length; nia).
  pose proof (byte_of_bits_bound _ Hg) as Hb. unfold single_byte. lia.
Qed.

Lemma decode_total_cases (pixels : list pixel) :
  (exists message, decode_lsb pixels = Found message) \/ decode_lsb pixels = NotFound.
Proof. rewrite decode_lsb_scan. apply decode_outcome_cases. Qed.

Lemma chars_of_bits_length (bits : list bool) :
  List.length (chars_of_bits bits) = List.length bits / 8.
Proof. unfold chars_of_bits. rewrite length_map, length_seq. reflexivity. Qed.

Lemma found_shape (pixels : list pixel) (m : pystr) :
  decode_lsb pixels = Found m ->
  exists rest,
    lsb_chars pixels = (m ++ delimiter) ++ rest
    /\ (forall n, n < List.length m + 9 ->
                  Py.endswith (firstn n (lsb_chars pixels)) delimiter = false)
    /\ Forall single_byte m
    /\ contains m delimiter = false
    /\ 8 * (List.length m + 9) <= 3 * List.length pixels.
Proof.
  intros H. rewrite decode_lsb_scan in H. apply decode_outcome_Found in H.
  apply scan_Some_prefix in H. destruct H as (rest & Hchars & Hfree).
  exists rest. split; [exact Hchars|]. split; [exact Hfree|].
  split; [|split].
  - pose proof (chars_of_bits_bytes (lsb_bits pixels)) as Hb.
    fold (lsb_chars pixels) in Hb. rewrite Hchars in Hb.
    apply Forall_app in Hb. destruct Hb as [Hb _].
    apply Forall_app in Hb. destruct Hb as [Hb _]. exact Hb.
  - destruct (contains m delimiter) eqn:E; [exfalso|reflexivity].
    unfold contains in E. apply existsb_exists in E. destruct E as (j & _ & E).
    apply startswith_prefix_match in E; [|discriminate].
    change (List.length delimiter) with 9 in E. destruct E as [E Hj].
    specialize (Hfree (j + 9) ltac:(lia)). rewrite Hchars in Hfree.
    rewrite <- app_assoc, firstn_app in Hfree.
    replace (j + 9 - List.length m) with 0 in Hfree by lia.
    cbn [firstn] in Hfree. rewrite app_nil_r in Hfree. congruence.
  - pose proof (chars_of_bits_length (lsb_bits pixels)) as Hl.
    fold (lsb_chars pixels) in Hl. rewrite Hchars, lsb_bits_length in Hl.
    rewrite !length_app in Hl. change (List.length delimiter) with 9 in Hl.
    pose proof (Nat.div_mod_eq (3 * List.length pixels) 8) as Hd. lia.
Qed.

(** X1 -- The decoder returns [message] exactly when [message] followed by
    the delimiter opens the character stream of the least-significant bits
    and no shorter prefix of the stream ends with the delimiter: the first
    match wins and only the matched delimiter is stripped. *)
Theorem decode_found_iff (pixels : list pixel) (message : pystr) :
  decode_lsb pixels = Found message
  <-> exists rest,
        lsb_chars pixels = (message ++ delimiter) ++ rest
        /\ forall n, n < List.length message + 9 ->
                     Py.endswith (firstn n (lsb_chars pixels)) delimiter = false.
Proof.
  split.
  - intros H. apply found_shape in H. destruct H as (rest & H1 & H2 & _).
    exists rest. split; assumption.
  - intros (rest & Hchars & Hfree). rewrite decode_lsb_scan, Hchars.
    rewrite scan_prefix_Some; [reflexivity|]. rewrite <- Hchars. exact Hfree.
Qed.

Lemma decode_found_iff_witness :
  decode_lsb (embed (framed_bits (lit "HI")) 0 (repeat black 30)) = Found (lit "HI").
Proof.
  apply (proj2 (decode_found_iff (embed (framed_bits (lit "HI")) 0 (repeat black 30))
                                 (lit "HI"))).
  exists []. split; [vm_compute; reflexivity|].
  intros n Hn. change (List.length (lit "HI") + 9) with 11 in Hn.
  do 11 (destruct n as [|n]; [vm_compute; reflexivity|]). lia.
Defined.

(** X2 -- The decoder finds a message exactly when some prefix of the
    character stream ends with the delimiter. *)
Theorem decode_finds_iff (pixels : list pixel) :
  (exists message, decode_lsb pixels = Found message)
  <-> exists n, Py.endswith (firstn n (lsb_chars pixels)) delimiter = true.
Proof.
  split.
  - intros [m H]. apply found_shape in H. destruct H as (rest & Hchars & _).
    exists (List.length m + 9). rewrite Hchars, firstn_app.
    replace (List.length m + 9 - List.length (m ++ delimiter)) with 0
      by (rewrite length_app; change (List.length delimiter) with 9; lia).
    rewrite firstn_all2
      by (rewrite length_app; change (List.length delimiter) with 9; lia).
    cbn [firstn]. rewrite app_nil_r. apply endswith_app.
  - intros [n Hn]. rewrite decode_lsb_scan.
    destruct (scan [] (lsb_chars pixels)) as [m|] eqn:E; [exists m; reflexivity|].
    rewrite (scan_None_prefix _ E n) in Hn. discriminate.
Qed.

Lemma decode_finds_iff_witness :
  exists message,
    decode_lsb (embed (framed_bits (lit "HI")) 0 (repeat black 30)) = Found message.
Proof.
  apply (proj2 (decode_finds_iff (embed (framed_bits (lit "HI")) 0 (repeat black 30)))).
  exists 11. vm_compute. reflexivity.
Defined.

(** X3 -- A found message is made of single-byte characters, does not contain
    the delimiter, and together with the delimiter fits the channels read:
    [8 * (len(message) + 9) <= 3 * len(pixels)]. *)
Theorem found_message_shape (pixels : list pixel) (message : pystr) :
  decode_lsb pixels = Found message ->
  Forall single_byte message
  /\ contains message delimiter = false
  /\ 8 * (List.length message + 9) <= 3 * List.length pixels.
Proof.
  intros H. apply found_shape in H. destruct H as (rest & _ & _ & H). exact H.
Qed.

Lemma found_message_shape_witness :
  Forall single_byte (lit "HI")
  /\ contains (lit "HI") delimiter = false
  /\ 8 * (List.length (lit "HI") + 9) <= 3 * List.length (repeat (7, 8, 9)%Z 30).
Proof.
  pose proof (@found_message_shape (embed (framed_bits (lit "HI")) 0 (repeat (7, 8, 9)%Z 30))
                (lit "HI") ltac:(vm_compute; reflexivity)) as H.
  rewrite embed_length in H. exact H.
Defined.

(** X4 -- No pixel sequence decodes to a message with a character above 255;
    so the output of a successful encode of such a message never decodes to
    that message. *)
Theorem wide_message_never_recovered
        (pixels : list pixel) (message : pystr) (out : list pixel) (c : codepoint) :
  In c message -> (255 < c)%N ->
  encode_lsb pixels message = Encoded out ->
  decode_lsb out <> Found message
  /\ forall other : list pixel, decode_lsb other <> Found message.
Proof.
  intros Hin Hc _.
  assert (Hany : forall other : list pixel, decode_lsb other <> Found message).
  { intros other H. apply found_shape in H. destruct H as (_ & _ & _ & Hb & _).
    rewrite Forall_forall in Hb. specialize (Hb c Hin). unfold single_byte in Hb. lia. }
  split; [apply Hany|exact Hany].
Qed.

Lemma wide_message_never_recovered_witness :
  decode_lsb (embed (framed_bits [256%N]) 0 (repeat black 27)) <> Found [256%N].
Proof.
  apply (proj1 (@wide_message_never_recovered (repeat black 27) [256%N]
                  (embed (framed_bits [256%N]) 0 (repeat black 27)) 256%N
                  (or_introl eq_refl) eq_refl ltac:(vm_compute; reflexivity))).
Defined.

End DecoderFinds.

(** ** What the decoder reads *)

Section DecoderReads.

Lemma lsb_bits_app (front back : list pixel) :
  lsb_bits (front ++ back) = lsb_bits front ++ lsb_bits back.
Proof. unfold lsb_bits. apply flat_map_app. Qed.

Lemma lsb_bits_cons (p : pixel) (rest : list pixel) :
  lsb_bits (p :: rest)
  = [Z.testbit (channel p 0) 0; Z.testbit (channel p 1) 0; Z.testbit (channel p 2) 0]
    ++ lsb_bits rest.
Proof. reflexivity. Qed.

Lemma land_1_testbit c c' : Z.land c 1 = Z.land c' 1 -> Z.testbit c 0 = Z.testbit c' 0.
Proof.
  intros H. apply (f_equal (fun z => Z.testbit z 0)) in H.
  rewrite !Z.land_spec in H. change (Z.testbit 1 0) with true in H.
  rewrite !andb_true_r in H. exact H.
Qed.

(** X5 -- The decoder reads nothing but the least-significant bit of each
    channel: two pixel sequences whose channels agree on [c & 1] decode to
    the same result. *)
Theorem decode_reads_lsb_only (pixels others : list pixel) :
  Forall2 (fun p q => forall j, j < 3 -> Z.land (channel p j) 1 = Z.land (channel q j) 1)
          pixels others ->
  decode_lsb pixels = decode_lsb others.
Proof.
  intros H.
  assert (Hbits : lsb_bits pixels = lsb_bits others).
  { induction H as [|p q ps qs Hpq _ IH]; [reflexivity|].
    rewrite !lsb_bits_cons, IH.
    rewrite (land_1_testbit _ _ (Hpq 0 ltac:(lia))).
    rewrite (land_1_testbit _ _ (Hpq 1 ltac:(lia))).
    rewrite (land_1_testbit _ _ (Hpq 2 ltac:(lia))). reflexivity. }
  rewrite !decode_lsb_scan. unfold lsb_chars. rewrite Hbits. reflexivity.
Qed.

Lemma decode_reads_lsb_only_witness :
  decode_lsb [(200, 100, 51); (17, 2, 255)]%Z = decode_lsb [(0, 0, 1); (1, 0, 1)]%Z.
Proof.
  apply decode_reads_lsb_only.
  repeat constructor; intros [|[|[|j]]] Hj; try reflexivity; lia.
Defined.

Lemma chars_of_bits_whole (q : nat) : forall whole rest : list bool,
  List.length whole = 8 * q ->
  chars_of_bits (whole ++ rest) = chars_of_bits whole ++ chars_of_bits rest.
Proof.
  induction q as [|q IH]; intros whole rest Hlen.
  - destruct whole; [reflexivity|cbn in Hlen; lia].
  - assert (Hg : List.length (firstn 8 whole) = 8) by (rewrite length_firstn; lia).
    assert (Hw : List.length (skipn 8 whole) = 8 * q) by (rewrite length_skipn; lia).
    rewrite <- (firstn_skipn 8 whole).
    generalize dependent (skipn 8 whole). generalize dependent (firstn 8 whole).
    intros g Hg w Hw. rewrite <- app_assoc.
    rewrite (chars_of_bits_group g (w ++ rest) Hg), (chars_of_bits_group g w Hg).
    rewrite (IH w rest Hw). reflexivity.
Qed.

Lemma chars_of_bits_prefix (front back : list bool) :
  exists more, chars_of_bits (front ++ back) = chars_of_bits front ++ more.
Proof.
  pose proof (Nat.div_mod_eq (List.length front) 8) as Hd.
  pose proof (Nat.mod_upper_bound (List.length front) 8 ltac:(lia)) as Hu.
  assert (Hsplit : front = firstn (8 * (List.length front / 8)) front
                           ++ skipn (8 * (List.length front / 8)) front)
    by (symmetry; apply firstn_skipn).
  assert (Hw : List.length (firstn (8 * (List.length front / 8)) front)
               = 8 * (List.length front / 8))
    by (rewrite length_firstn; lia).
  assert (Ht : List.length (skipn (8 * (List.length front / 8)) front) < 8)
    by (rewrite length_skipn; lia).
  remember (List.length front / 8) as q eqn:Hq.
  remember (firstn (8 * q) front) as whole eqn:Hwhole.
  remember (skipn (8 * q) front) as trailing eqn:Htrailing.
  exists (chars_of_bits (trailing ++ back)).
  rewrite Hsplit, <- app_assoc, (chars_of_bits_whole q whole (trailing ++ back) Hw).
  assert (Hw8 : List.length whole mod 8 = 0)
    by (rewrite Hw, Nat.mul_comm; apply Nat.Div0.mod_mul).
  rewrite (chars_of_bits_trailing whole trailing Hw8 Ht). reflexivity.
Qed.

Lemma scan_app_Some (chars : pystr) : forall message more m,
  scan message chars = Some m -> scan message (chars ++ more) = Some m.
Proof.
  induction chars as [|c rest IH]; intros message more m H; [discriminate|].
  cbn [app scan] in *.
  destruct (Py.endswith (message ++ [c]) delimiter); [exact H|]. apply IH, H.
Qed.

(** X6 -- Pixels after the matched delimiter are never read into the result:
    a message found in a pixel sequence is found, unchanged, in every
    extension of that sequence. *)
Theorem decode_extension (pixels more : list pixel) (message : pystr) :
  decode_lsb pixels = Found message ->
  decode_lsb (pixels ++ more) = Found message.
Proof.
  intros H. rewrite decode_lsb_scan in *. apply decode_outcome_Found in H.
  unfold lsb_chars in *. rewrite lsb_bits_app.
  destruct (chars_of_bits_prefix (lsb_bits pixels) (lsb_bits more)) as [extra ->].
  rewrite (scan_app_Some _ _ extra H). reflexivity.
Qed.

Lemma decode_extension_witness :
  decode_lsb (embed (framed_bits (lit "HI")) 0 (repeat black 30) ++ [(1, 1, 1); (255, 0, 7)]%Z)
  = Found (lit "HI").
Proof.
  apply decode_extension. vm_compute. reflexivity.
Defined.

End DecoderReads.

(** ** Encoding, then decoding *)

Section FirstDelimiter.

Lemma lsb_chars_embed (pixels : list pixel) (message : pystr) :
  Forall single_byte message ->
  8 * (List.length message + 9) <= 3 * List.length pixels ->
  exists rest,
    lsb_chars (embed (framed_bits message) 0 pixels) = (message ++ delimiter) ++ rest.
Proof.
  intros Hm Hcap. unfold lsb_chars.
  rewrite framed_bits_single_byte by exact Hm.
  rewrite lsb_bits_embed
    by (rewrite bitstream_length, length_app; change (List.length delimiter) with 9; exact Hcap).
  rewrite chars_of_bitstream
    by (apply Forall_app; split; [exact Hm|exact delimiter_single_byte]).
  eexists. reflexivity.
Qed.

Lemma firstn_framed (message rest : pystr) :
  firstn (List.length message + 9) ((message ++ delimiter) ++ rest) = message ++ delimiter.
Proof.
  rewrite firstn_app.
  replace (List.length message + 9 - List.length (message ++ delimiter)) with 0
    by (rewrite length_app; change (List.length delimiter) with 9; lia).
  rewrite firstn_all2
    by (rewrite length_app; change (List.length delimiter) with 9; lia).
  cbn [firstn]. apply app_nil_r.
Qed.

(** X7 -- Encoding any message of single-byte characters that fits and
    decoding the result always finds a message: the part of the original
    before the first occurrence of the delimiter in [message + delimiter],
    so a message is cut where it contains or completes the delimiter. *)
Theorem encode_decode_first_delimiter (pixels : list pixel) (message : pystr) :
  Forall single_byte message ->
  8 * (List.length message + 9) <= 3 * List.length pixels ->
  exists out found rest,
    encode_lsb pixels message = Encoded out
    /\ decode_lsb out = Found found
    /\ message ++ delimiter = (found ++ delimiter) ++ rest
    /\ contains found delimiter = false
    /\ (forall n, n < List.length found + 9 ->
                  Py.endswith (firstn n (message ++ delimiter)) delimiter = false).
Proof.
  intros Hm Hcap.
  destruct (lsb_chars_embed pixels Hm Hcap) as [tail Hchars].
  exists (embed (framed_bits message) 0 pixels).
  assert (Henc : encode_lsb pixels message = Encoded (embed (framed_bits message) 0 pixels))
    by (apply encode_fits; rewrite framed_bits_length by exact Hm; exact Hcap).
  destruct (decode_total_cases (embed (framed_bits message) 0 pixels)) as [[found Hf]|Hn].
  - pose proof (found_shape _ Hf) as (rest & Hfchars & Hfree & _ & Hcont & _).
    rewrite Hchars in Hfchars, Hfree.
    assert (Hle : List.length found <= List.length message).
    { destruct (Nat.le_gt_cases (List.length found) (List.length message)) as [H|H];
        [exact H|exfalso].
      specialize (Hfree (List.length message + 9) ltac:(lia)).
      rewrite firstn_framed, endswith_app in Hfree. discriminate. }
    exists found, (firstn (List.length message - List.length found) rest).
    split; [exact Henc|]. split; [exact Hf|]. split; [|split; [exact Hcont|]].
    + pose proof (f_equal (firstn (List.length message + 9)) Hfchars) as Hcut.
      rewrite firstn_framed in Hcut. rewrite Hcut, firstn_app.
      rewrite firstn_all2
        by (rewrite length_app; change (List.length delimiter) with 9; lia).
      rewrite length_app. change (List.length delimiter) with 9.
      replace (List.length message + 9 - (List.length found + 9))
        with (List.length message - List.length found) by lia.
      reflexivity.
    + intros n Hn. specialize (Hfree n Hn). rewrite firstn_app in Hfree.
      replace (n - List.length (message ++ delimiter)) with 0 in Hfree
        by (rewrite length_app; change (List.length delimiter) with 9; lia).
      cbn [firstn] in Hfree. rewrite app_nil_r in Hfree. exact Hfree.
  - exfalso. rewrite decode_lsb_scan in Hn. apply decode_outcome_NotFound in Hn.
    pose proof (scan_None_prefix _ Hn (List.length message + 9)) as H.
    rewrite Hchars, firstn_framed, endswith_app in H. discriminate.
Qed.

Lemma encode_decode_first_delimiter_witness :
  exists out found rest,
    encode_lsb (repeat black 64) (lit "ab|||END|||cd") = Encoded out
    /\ decode_lsb out = Found found
    /\ lit "ab|||END|||cd" ++ delimiter = (found ++ delimiter) ++ rest
    /\ contains found delimiter = false
    /\ (forall n, n < List.length found + 9 ->
                  Py.endswith (firstn n (lit "ab|||END|||cd" ++ delimiter)) delimiter = false).
Proof.
  apply encode_decode_first_delimiter.
  - repeat constructor; unfold single_byte; cbn; lia.
  - vm_compute. lia.
Defined.

End FirstDelimiter.

(** ** More on the encoder *)

Section EncoderMore.


Lemma embed_channel_twice (first second : pystr) c j :
  Forall is_bit first ->
  List.length first <= List.length second ->
  embed_channel second (embed_channel first c j) j = embed_channel second c j.
Proof.
  intros Hb Hlen. unfold embed_channel at 1 3.
  destruct (j <? List.length second) eqn:E.
  - rewrite embed_channel_high by exact Hb. reflexivity.
  - apply Nat.ltb_ge in E. apply embed_channel_beyond. lia.
Qed.

Lemma embed_twice (first second : pystr) (pixels : list pixel) :
  Forall is_bit first ->
  List.length first <= List.length second ->
  forall k, embed second k (embed first k pixels) = embed second k pixels.
Proof.
  intros Hb Hlen. induction pixels as [|[[r g] b] rest IH]; intros k; [reflexivity|].
  cbn [embed embed_pixel]. rewrite IH, !embed_channel_twice by assumption. reflexivity.
Qed.

(** X9 -- Encoding is idempotent: encoding the same message into the output
    of a successful encode returns that output again. *)
Theorem encode_idempotent (pixels : list pixel) (message : pystr) (out : list pixel) :
  encode_lsb pixels message = Encoded out ->
  encode_lsb out message = Encoded out.
Proof.
  intros H. apply encode_Encoded_inv in H. destruct H as [-> Hcap].
  rewrite encode_fits by (rewrite embed_length; exact Hcap).
  rewrite embed_twice; [reflexivity|apply framed_bits_digits|lia].
Qed.

Lemma encode_idempotent_witness :
  encode_lsb (embed (framed_bits (lit "HI")) 0 (repeat (9, 8, 7)%Z 30)) (lit "HI")
  = Encoded (embed (framed_bits (lit "HI")) 0 (repeat (9, 8, 7)%Z 30)).
Proof.
  apply (@encode_idempotent (repeat (9, 8, 7)%Z 30)). vm_compute. reflexivity.
Defined.

(** X10 -- A message whose bit string is at least as long as an earlier one
    overwrites it completely: encoding it into the earlier output gives the
    same result as encoding it into the original pixels. *)
Theorem encode_overwrites (pixels : list pixel) (earlier later : pystr) (out : list pixel) :
  encode_lsb pixels earlier = Encoded out ->
  List.length (framed_bits earlier) <= List.length (framed_bits later) ->
  encode_lsb out later = encode_lsb pixels later.
Proof.
  intros H Hlen. apply encode_Encoded_inv in H. destruct H as [-> _].
  rewrite !encode_lsb_embed, embed_length.
  rewrite embed_twice; [reflexivity|apply framed_bits_digits|exact Hlen].
Qed.

Lemma encode_overwrites_witness :
  encode_lsb (embed (framed_bits (lit "HI")) 0 (repeat (9, 8, 7)%Z 40)) (lit "HELLO")
  = encode_lsb (repeat (9, 8, 7)%Z 40) (lit "HELLO").
Proof.
  apply (@encode_overwrites (repeat (9, 8, 7)%Z 40) (lit "HI") (lit "HELLO")).
  - vm_compute. reflexivity.
  - vm_compute. lia.
Defined.

Lemma set_lsb_close c b :
  valid_channel c -> (Z.abs (Z.lor (Z.land c 254) (Z.b2z b) - c) <= 1)%Z.
Proof.
  intros [Hlo Hhi]. rewrite <- (Z2N.id c Hlo).
  set (close := fun n : N =>
         (Z.abs (Z.lor (Z.land (Z.of_N n) 254) (Z.b2z b) - Z.of_N n) <=? 1)%Z).
  assert (H : close (Z.to_N c) = true).
  { apply below_256; [destruct b; vm_compute; reflexivity|lia]. }
  unfold close in H. apply Z.leb_le in H. exact H.
Qed.

Lemma embed_channel_close (binary_message : pystr) c j :
  Forall is_bit binary_message -> valid_channel c ->
  (Z.abs (embed_channel binary_message c j - c) <= 1)%Z.
Proof.
  intros Hb Hc. destruct (Nat.lt_ge_cases j (List.length binary_message)) as [Hj|Hj].
  - rewrite Forall_forall in Hb.
    destruct (is_bit_inv (Hb _ (nth_In binary_message 48%N Hj))) as [b Hd].
    rewrite (@embed_channel_bit binary_message c j b).
    + apply set_lsb_close, Hc.
    + rewrite (nth_error_nth' binary_message 48%N Hj), Hd. reflexivity.
  - rewrite embed_channel_beyond by exact Hj. lia.
Qed.

Lemma valid_pixel_channel p j : valid_pixel p -> valid_channel (channel p j).
Proof.
  destruct p as [[r g] b]. intros (Hr & Hg & Hb).
  destruct j as [|[|j]]; assumption.
Qed.

(** X11 -- On the pixels of an RGB image the encoder yields pixels of an RGB
    image, and no channel moves by more than 1. *)
Theorem encode_imperceptible (pixels : list pixel) (message : pystr) (out : list pixel) :
  Forall valid_pixel pixels ->
  encode_lsb pixels message = Encoded out ->
  Forall valid_pixel out
  /\ forall q j, q < List.length pixels -> j < 3 ->
       (Z.abs (channel (nth q out black) j - channel (nth q pixels black) j) <= 1)%Z.
Proof.
  intros Hv H. split; [exact (encode_valid _ H Hv)|].
  intros q j Hq Hj. rewrite (@encoded_channel pixels message out q j H Hq Hj).
  apply embed_channel_close; [apply framed_bits_digits|].
  apply valid_pixel_channel. rewrite Forall_forall in Hv. apply Hv, nth_In, Hq.
Qed.

Lemma encode_imperceptible_witness :
  Forall valid_pixel (embed (framed_bits (lit "HI")) 0 (repeat (255, 0, 128)%Z 30))
  /\ (Z.abs (channel (nth 0 (embed (framed_bits (lit "HI")) 0 (repeat (255, 0, 128)%Z 30)) black) 1
             - channel (nth 0 (repeat (255, 0, 128)%Z 30) black) 1) <= 1)%Z.
Proof.
  assert (Hv : Forall valid_pixel (repeat (255, 0, 128)%Z 30)).
  { apply Forall_forall. intros p Hp. apply repeat_spec in Hp. subst p.
    unfold valid_pixel, valid_channel. lia. }
  pose proof (@encode_imperceptible (repeat (255, 0, 128)%Z 30) (lit "HI")
                (embed (framed_bits (lit "HI")) 0 (repeat (255, 0, 128)%Z 30))
                Hv ltac:(vm_compute; reflexivity)) as [H1 H2].
  split; [exact H1|]. apply H2; [vm_compute; lia|lia].
Defined.

(** X12 -- A carrier can hold a message at all exactly when it has at least
    24 pixels: the delimiter alone takes 72 channels, so with fewer pixels
    every message, the empty one included, is refused. *)
Theorem encode_needs_24_pixels (pixels : list pixel) :
  (exists message out, encode_lsb pixels message = Encoded out)
  <-> 24 <= List.length pixels.
Proof.
  split.
  - intros (message & out & H). apply encode_Encoded_inv in H. destruct H as [_ H].
    pose proof (join_format_length_ge (message ++ delimiter)) as Hge.
    fold (framed_bits message) in Hge. rewrite length_app in Hge.
    change (List.length delimiter) with 9 in Hge. lia.
  - intros H. exists [], (embed (framed_bits []) 0 pixels). apply encode_fits.
    change (List.length (framed_bits [])) with 72. lia.
Qed.

Lemma encode_needs_24_pixels_witness :
  exists message out, encode_lsb (repeat black 24) message = Encoded out.
Proof.
  apply (proj2 (encode_needs_24_pixels (repeat black 24))). vm_compute. lia.
Defined.

End EncoderMore.

(** ** The command line *)

Section CommandLine.

Variable lower : pystr -> pystr.

Lemma pystr_eqb_refl (s : pystr) : pystr_eqb s s = true.
Proof. unfold pystr_eqb. destruct (list_eq_dec N.eq_dec s s); congruence. Qed.

Lemma pystr_eqb_true (s t : pystr) : pystr_eqb s t = true <-> s = t.
Proof.
  split; [apply pystr_eqb_eq|]. intros ->. apply pystr_eqb_refl.
Qed.

(** [main] unfolded on an argument vector with a command. *)
Lemma main_command (prog cmd : pystr) (rest : list pystr) :
  main lower (prog :: cmd :: rest)
  = if pystr_eqb (lower cmd) (lit "encode") then
      match rest with
      | [input_image; message; output_image] =>
          Ok (RunEncode input_image message output_image)
      | _ => Ok EncodeUsageError
      end
    else if pystr_eqb (lower cmd) (lit "decode") then
      match rest with
      | [stego_image] => Ok (RunDecode stego_image)
      | _ => Ok DecodeUsageError
      end
    else if pystr_eqb (lower cmd) (lit "sample") then
      Ok (RunSample (hd (lit "sample.png") rest))
    else Ok (UnknownCommand (lower cmd)).
Proof.
  unfold main. cbn [Py.len List.length Nat.ltb Nat.leb argv_index nth_error bind].
  destruct (pystr_eqb (lower cmd) (lit "encode")).
  - destruct rest as [|a2 [|a3 [|a4 [|a5 rest]]]]; reflexivity.
  - destruct (pystr_eqb (lower cmd) (lit "decode")).
    + destruct rest as [|a2 [|a3 rest]]; reflexivity.
    + destruct (pystr_eqb (lower cmd) (lit "sample")); [|reflexivity].
      destruct rest as [|a2 rest]; reflexivity.
Qed.


(** X14 -- [main] runs the encoder exactly when the command is "encode" up
    to case and exactly three operands follow; they are passed on, in order,
    as input image, message and output image. *)
Theorem main_runs_encode (argv : list pystr) (input_image message output_image : pystr) :
  main lower argv = Ok (RunEncode input_image message output_image)
  <-> exists prog cmd,
        argv = [prog; cmd; input_image; message; output_image]
        /\ lower cmd = lit "encode".
Proof.
  split.
  - intros H. destruct argv as [|prog [|cmd rest]]; try discriminate.
    rewrite main_command in H.
    destruct (pystr_eqb (lower cmd) (lit "encode")) eqn:E.
    + apply pystr_eqb_eq in E.
      destruct rest as [|a2 [|a3 [|a4 [|a5 rest]]]]; try discriminate.
      inversion H; subst. exists prog, cmd. split; [reflexivity|exact E].
    + destruct (pystr_eqb (lower cmd) (lit "decode")).
      * destruct rest as [|a2 [|a3 rest]]; discriminate.
      * destruct (pystr_eqb (lower cmd) (lit "sample")); discriminate.
  - intros (prog & cmd & -> & E). rewrite main_command, E. reflexivity.
Qed.

(** X15 -- [main] runs the decoder exactly when the command is "decode" up
    to case and exactly one operand follows, the image to decode. *)
Theorem main_runs_decode (argv : list pystr) (stego_image : pystr) :
  main lower argv = Ok (RunDecode stego_image)
  <-> exists prog cmd, argv = [prog; cmd; stego_image] /\ lower cmd = lit "decode".
Proof.
  split.
  - intros H. destruct argv as [|prog [|cmd rest]]; try discriminate.
    rewrite main_command in H.
    destruct (pystr_eqb (lower cmd) (lit "encode")).
    + destruct rest as [|a2 [|a3 [|a4 [|a5 rest]]]]; discriminate.
    + destruct (pystr_eqb (lower cmd) (lit "decode")) eqn:E.
      * apply pystr_eqb_eq in E.
        destruct rest as [|a2 [|a3 rest]]; try discriminate.
        inversion H; subst. exists prog, cmd. split; [reflexivity|exact E].
      * destruct (pystr_eqb (lower cmd) (lit "sample")); discriminate.
  - intros (prog & cmd & -> & E). rewrite main_command, E. reflexivity.
Qed.

(** X16 -- [main] creates a sample image exactly when the command is
    "sample" up to case; the file name is the first operand when there is
    one, "sample.png" otherwise, and further operands are ignored. *)
Theorem main_runs_sample (argv : list pystr) (filename : pystr) :
  main lower argv = Ok (RunSample filename)
  <-> exists prog cmd rest,
        argv = prog :: cmd :: rest
        /\ lower cmd = lit "sample"
        /\ filename = hd (lit "sample.png") rest.
Proof.
  split.
  - intros H. destruct argv as [|prog [|cmd rest]]; try discriminate.
    rewrite main_command in H.
    destruct (pystr_eqb (lower cmd) (lit "encode")).
    + destruct rest as [|a2 [|a3 [|a4 [|a5 rest]]]]; discriminate.
    + destruct (pystr_eqb (lower cmd) (lit "decode")).
      * destruct rest as [|a2 [|a3 rest]]; discriminate.
      * destruct (pystr_eqb (lower cmd) (lit "sample")) eqn:E; [|discriminate].
        apply pystr_eqb_eq in E. inversion H; subst.
        exists prog, cmd, rest. repeat split. exact E.
  - intros (prog & cmd & rest & -> & E & ->). rewrite main_command, E. reflexivity.
Qed.

End CommandLine.

Lemma main_runs_encode_witness :
  main ascii_lower [lit "stego_tool.py"; lit "Encode"; lit "cat.png"; lit "CTF{flag}";
                    lit "challenge.png"]
  = Ok (RunEncode (lit "cat.png") (lit "CTF{flag}") (lit "challenge.png")).
Proof.
  apply (proj2 (main_runs_encode ascii_lower _ _ _ _)).
  exists (lit "stego_tool.py"), (lit "Encode"). split; reflexivity.
Defined.

Lemma main_runs_decode_witness :
  main ascii_lower [lit "stego_tool.py"; lit "DECODE"; lit "challenge.png"]
  = Ok (RunDecode (lit "challenge.png")).
Proof.
  apply (proj2 (main_runs_decode ascii_lower _ _)).
  exists (lit "stego_tool.py"), (lit "DECODE"). split; reflexivity.
Defined.

Lemma main_runs_sample_witness :
  main ascii_lower [lit "stego_tool.py"; lit "sample"] = Ok (RunSample (lit "sample.png")).
Proof.
  apply (proj2 (main_runs_sample ascii_lower _ _)).
  exists (lit "stego_tool.py"), (lit "sample"), []. repeat split.
Defined.
